(** * tlo-vote-tally: a shallow embedding of [tlo-vote-tally.py]

    The script discovers the bill pages of one chamber of the Texas
    legislature, scrapes the vote records of every bill and appends them to a
    CSV file.  This development embeds its five functions ([lxmlize],
    [get_chamber_bills], [scrape_chamber], [write_data], [main]) and proves
    the properties its specification states about them.

    Layout:
    - [Re]: the fragment of Python's [re] that the two patterns of the script
      use, as a backtracking matcher with a relational specification;
    - [Py]: Python values, exceptions, and the monad of effects (the events
      the script causes, the network, the file system), with generators;
    - the libraries the script calls ([requests], [lxml], [csv], [argparse])
      as far as the script uses them; [lxml] is an interface, and [Dom]
      implements it to run the script on concrete pages;
    - the five functions, in the order of the source;
    - the vocabulary of the specification, and the theorems.

    A Python string is embedded as a [string] of 8-bit characters; a file as
    the text written to it, and a file object as the path it was opened on
    and the text written to it since, which is in the file once the object
    is closed. *)

From stdpp Require Import gmap strings list pretty.
From Stdlib Require Import Ascii Lia.
From Stdlib Require String.

Local Open Scope char_scope.

(** Python's [str] is embedded as [string]; the regular expression engine
    works on the list of its characters. *)
Abbreviation chars := (list ascii).

Definition newline : ascii := "010".

(* ===================================================================== *)
(** * The regular expressions of the script *)
(* ===================================================================== *)

Module Re.

(** The syntax of the two patterns, [r'.*=[SH]B\d+$'] and [r'[SH]B\d+$']. *)
Inductive regex : Type :=
| Chr (c : ascii)            (* a literal character                      *)
| Dot                        (* [.]: any character except a newline      *)
| OneOf (cs : list ascii)    (* [[...]]: a character set                 *)
| Digit                      (* [\d]                                     *)
| Cat (r1 r2 : regex)        (* concatenation                            *)
| Star (r : regex)           (* [r*], greedy                             *)
| Plus (r : regex)           (* [r+], greedy                             *)
| Eos.                       (* [$] without [re.MULTILINE]               *)

Definition is_digit (c : ascii) : bool :=
  match c with
  | "0" | "1" | "2" | "3" | "4" | "5" | "6" | "7" | "8" | "9" => true
  | _ => false
  end.

Definition is_dot (c : ascii) : bool := negb (Ascii.eqb c newline).

Definition mem (c : ascii) (cs : list ascii) : bool :=
  existsb (Ascii.eqb c) cs.

(** [$] matches at the end of the string and just before a newline that is
    the last character of the string. *)
Definition at_eos (s : chars) : bool :=
  match s with
  | [] => true
  | [c] => Ascii.eqb c newline
  | _ => false
  end.

Definition one (p : ascii → bool) (s : chars) : list chars :=
  match s with
  | c :: s' => if p c then [s'] else []
  | [] => []
  end.

(** Greedy repetition: every way to iterate [step] from [s], the longest
    first, ending with no iteration at all.  An iteration that consumes
    nothing is not repeated. *)
Fixpoint iter (step : chars → list chars) (fuel : nat) (s : chars)
  : list chars :=
  match fuel with
  | 0 => [s]
  | S fuel' =>
      flat_map
        (λ s', if Nat.ltb (length s') (length s) then iter step fuel' s' else [])
        (step s)
      ++ [s]
  end.

(** [run r s]: the remainders of [s] after each way [r] matches a prefix of
    [s], in the order a backtracking matcher tries them. *)
Fixpoint run (r : regex) (s : chars) : list chars :=
  match r with
  | Chr c => one (Ascii.eqb c) s
  | Dot => one is_dot s
  | OneOf cs => one (λ c, mem c cs) s
  | Digit => one is_digit s
  | Cat r1 r2 => flat_map (run r2) (run r1 s)
  | Star r => iter (run r) (length s) s
  | Plus r => flat_map (λ s', iter (run r) (length s') s') (run r s)
  | Eos => if at_eos s then [s] else []
  end.

(** The text of the first match that starts at the beginning of [s]. *)
Definition match_at (r : regex) (s : chars) : option chars :=
  match run r s with
  | s' :: _ => Some (take (length s - length s') s)
  | [] => None
  end.

(** [re.match(r, s)]: [None], or the match object, of which the script only
    uses the matched text. *)
Definition re_match (r : regex) (s : string) : option string :=
  String.string_of_list_ascii <$> match_at r (String.list_ascii_of_string s).

(** [re.search(r, s)]: the leftmost position at which [r] matches. *)
Fixpoint search_from (r : regex) (s : chars) : option chars :=
  match match_at r s with
  | Some m => Some m
  | None => match s with
            | [] => None
            | _ :: s' => search_from r s'
            end
  end.

Definition re_search (r : regex) (s : string) : option string :=
  String.string_of_list_ascii <$> search_from r (String.list_ascii_of_string s).

(** ** Relational specification of the matcher *)

(** [Matches r s s']: [r] matches a prefix of [s] and leaves [s']. *)
Inductive Matches : regex → chars → chars → Prop :=
| M_Chr c s : Matches (Chr c) (c :: s) s
| M_Dot c s : c ≠ newline → Matches Dot (c :: s) s
| M_OneOf cs c s : In c cs → Matches (OneOf cs) (c :: s) s
| M_Digit c s : is_digit c = true → Matches Digit (c :: s) s
| M_Cat r1 r2 s s1 s2 :
    Matches r1 s s1 → Matches r2 s1 s2 → Matches (Cat r1 r2) s s2
| M_Star_nil r s : Matches (Star r) s s
| M_Star_cons r s s1 s2 :
    Matches r s s1 → Matches (Star r) s1 s2 → Matches (Star r) s s2
| M_Plus r s s1 s2 :
    Matches r s s1 → Matches (Star r) s1 s2 → Matches (Plus r) s s2
| M_Eos s : at_eos s = true → Matches Eos s s.

End Re.

Import Re.

Definition chars_of (s : string) : chars := String.list_ascii_of_string s.

(** A bill identifier: [S] or [H], then [B], then one or more digits. *)
Definition bill_id (id : chars) : Prop :=
  ∃ c ds, id = c :: "B" :: ds ∧ (c = "S" ∨ c = "H") ∧ ds ≠ [] ∧
          Forall (λ d, is_digit d = true) ds.

(** What [$] accepts as the rest of the string. *)
Definition eos (s : chars) : Prop := s = [] ∨ s = [newline].

(** The pattern of [get_chamber_bills], [r'.*=[SH]B\d+$']. *)
Definition BILL_LINK : regex :=
  Cat (Star Dot)
    (Cat (Chr "=") (Cat (OneOf ["S"; "H"]) (Cat (Chr "B") (Cat (Plus Digit) Eos)))).

(** The pattern of [scrape_chamber], [r'[SH]B\d+$']. *)
Definition BILL_ID : regex :=
  Cat (OneOf ["S"; "H"]) (Cat (Chr "B") (Cat (Plus Digit) Eos)).


(* ===================================================================== *)
(** * Python values, exceptions and effects *)
(* ===================================================================== *)

Module Py.

(** The exceptions the script can meet.  [SSLError] is a subclass of
    requests' [ConnectionError]; here [ConnectionError] stands for the
    connection errors that are not SSL errors (refused connections, connect
    timeouts), and [RequestException] for every other failure of a request.
    [ValueError] is what the rewriting of a malformed link and a write to a
    closed file object raise, [OSError] what [open] raises. *)
Inductive exn : Type :=
| SSLError | ConnectionError | RequestException | HTTPError
| ParserError | KeyError | AttributeError | IndexError
| ValueError | OSError.

Inductive result (A : Type) : Type :=
| Ok (a : A)
| Raise (e : exn).
Global Arguments Ok {A} a.
Global Arguments Raise {A} e.

(** The values that reach a CSV cell or an attribute of the parser. *)
Inductive value : Type :=
| VNone
| VBool (b : bool)
| VInt (n : nat)
| VStr (s : string)
| VObject (repr : string).

Global Instance value_eq_dec : EqDecision value.
Proof. solve_decision. Defined.

(** [str(v)], as f-strings apply it. *)
Definition str (v : value) : string :=
  match v with
  | VNone => "None"
  | VBool true => "True"
  | VBool false => "False"
  | VInt n => pretty n
  | VStr s => s
  | VObject repr => repr
  end.

(** Truth value of [v], as [if v:] tests it. *)
Definition truthy (v : value) : bool :=
  match v with
  | VNone => false
  | VBool b => b
  | VInt n => negb (Nat.eqb n 0)
  | VStr s => negb (String.eqb s EmptyString)
  | VObject _ => true
  end.

(** ** The world outside the script *)

(** One call of [requests.get(url)] or [requests.get(url, verify=False)]. *)
Record Request : Type := { req_url : string; req_verify : bool }.

Record Response : Type := { status_code : nat; text : string }.

Inductive failure : Type := SSL_failure | Connection_failure | Other_failure.

Inductive outcome : Type :=
| Responds (r : Response)
| Fails (f : failure).

Definition exn_of (f : failure) : exn :=
  match f with
  | SSL_failure => SSLError
  | Connection_failure => ConnectionError
  | Other_failure => RequestException
  end.

(** A row handed to [csv.writer.writerow]. *)
Abbreviation csv_row := (list value).

(** What the script does to the world outside, in the order it does it. *)
Inductive event : Type :=
| Print (line : string)          (* [print(line)]                        *)
| Get (request : Request)        (* a call of [requests.get]             *)
| Sleep (seconds : nat).         (* [time.sleep(seconds)]                *)

(** A file object that [open] returned and [close] has not closed yet: the
    path it was opened on, and the text written to it since.  The object
    buffers that text; all of it is in the file once [close] returns. *)
Record FileObject : Type := { name : string; written : chars }.

Record World : Type := {
  events : list event;             (* the events so far, oldest first      *)
  server : list Request → Request → outcome;
                                   (* the answer to a request, given the
                                      requests issued before it            *)
  connections : nat;               (* responses received and not closed    *)
  refuses : string → bool;         (* the paths the system does not open
                                      for appending: the empty path, a
                                      directory, a path in a directory that
                                      does not exist, ...                  *)
  files : gmap string chars;       (* the text of every file: the characters
                                      written to it                        *)
  open_files : gmap nat FileObject; (* the open file objects, each with its
                                      identity                             *)
}.

Definition log (e : event) (w : World) : World :=
  {| events := events w ++ [e]; server := server w;
     connections := connections w; refuses := refuses w; files := files w;
     open_files := open_files w |}.

Definition request_of (e : event) : list Request :=
  match e with
  | Get request => [request]
  | _ => []
  end.

(** The requests issued so far. *)
Definition requests (w : World) : list Request :=
  flat_map request_of (events w).

Definition line_of (e : event) : list string :=
  match e with
  | Print line => [line]
  | _ => []
  end.

(** The lines printed so far. *)
Definition stdout (w : World) : list string := flat_map line_of (events w).

(** Computations: a result or an exception, and the world they leave. *)
Definition M (A : Type) : Type := World → result A * World.

Global Instance M_ret : MRet M := λ A a w, (Ok a, w).

Global Instance M_bind : MBind M := λ A B f m w,
  match m w with
  | (Ok a, w') => f a w'
  | (Raise e, w') => (Raise e, w')
  end.

Definition raise {A} (e : exn) : M A := λ w, (Raise e, w).

(** [try: body except ...: handler]: [handler e] is [None] when no [except]
    clause catches [e]; an exception raised by a handler is not caught. *)
Definition try_except {A} (body : M A) (handler : exn → option (M A)) : M A :=
  λ w, match body w with
       | (Ok a, w') => (Ok a, w')
       | (Raise e, w') =>
           match handler e with
           | Some h => h w'
           | None => (Raise e, w')
           end
       end.

Definition print (line : string) : M unit := λ w, (Ok tt, log (Print line) w).

(** [time.sleep(seconds)] *)
Definition sleep (seconds : nat) : M unit := λ w, (Ok tt, log (Sleep seconds) w).

(** [l[0]] *)
Definition item0 {A} (l : list A) : M A :=
  match l with
  | x :: _ => mret x
  | [] => raise IndexError
  end.

(** [d[k]] on a dict *)
Definition subscript {V} (d : gmap string V) (k : string) : M V :=
  match d !! k with
  | Some v => mret v
  | None => raise KeyError
  end.

(** [m.group()] on the result of [re.match] or [re.search]: [None] has no
    attribute [group]. *)
Definition group (m : option string) : M string :=
  match m with
  | Some text => mret text
  | None => raise AttributeError
  end.

(** [for x in l: body x] over a list. *)
Fixpoint for_list {A} (l : list A) (body : A → M unit) : M unit :=
  match l with
  | [] => mret tt
  | x :: l' => body x ;; for_list l' body
  end.

(** ** Generators *)

(** A generator object: [next] resumes its body up to the following
    [yield], which hands out an item and the suspended generator, or up to
    its end ([None], Python's [StopIteration]). *)
Local Unset Elimination Schemes.
Inductive Generator (A : Type) : Type :=
| Gen (next : M (option (A * Generator A))).
Local Set Elimination Schemes.
Global Arguments Gen {A} next.

Definition next {A} (g : Generator A) : M (option (A * Generator A)) :=
  match g with Gen n => n end.

(** [for x in g: body x] over a generator. *)
Fixpoint for_each {A} (g : Generator A) (body : A → M unit) (w : World)
  : result unit * World :=
  match g with
  | Gen n =>
      match n w with
      | (Ok (Some (x, g')), w1) =>
          match body x w1 with
          | (Ok _, w2) => for_each g' body w2
          | (Raise e, w2) => (Raise e, w2)
          end
      | (Ok None, w1) => (Ok tt, w1)
      | (Raise e, w1) => (Raise e, w1)
      end
  end.

(** ** [str.strip()] *)

(** The characters [str.isspace] accepts among the first 256 code points. *)
Definition is_space (c : ascii) : bool :=
  match c with
  | "009" | "010" | "011" | "012" | "013" | "028" | "029" | "030" | "031"
  | " " | "133" | "160" => true
  | _ => false
  end.

Fixpoint lstrip (s : chars) : chars :=
  match s with
  | c :: s' => if is_space c then lstrip s' else s
  | [] => []
  end.

Definition rstrip (s : chars) : chars := rev (lstrip (rev s)).

Definition strip (s : string) : string :=
  String.string_of_list_ascii (rstrip (lstrip (chars_of s))).

End Py.

Import Py.

(* ===================================================================== *)
(** * The libraries the script calls *)
(* ===================================================================== *)

(** ** requests *)

(** [requests.get(url)] and [requests.get(url, verify=False)]: the request is
    issued, and the network answers with a response or fails. *)
Definition requests_get (url : string) (verify : bool) : M Response := λ w,
  let request := {| req_url := url; req_verify := verify |} in
  match server w (requests w) request with
  | Responds r =>
      (Ok r, {| events := events w ++ [Get request]; server := server w;
                connections := S (connections w); refuses := refuses w;
                files := files w; open_files := open_files w |})
  | Fails f => (Raise (exn_of f), log (Get request) w)
  end.

(** [response.raise_for_status()]: [HTTPError] on the client and server
    error codes, 400 to 599. *)
Definition is_error_status (code : nat) : bool :=
  Nat.leb 400 code && Nat.ltb code 600.

Definition raise_for_status (response : Response) : M unit :=
  if is_error_status (status_code response) then raise HTTPError else mret tt.

(** [response.close()] *)
Definition response_close (response : Response) : M unit := λ w,
  (Ok tt, {| events := events w; server := server w;
             connections := pred (connections w); refuses := refuses w;
             files := files w; open_files := open_files w |}).

(** ** lxml *)

(** What the script uses of an lxml document: the parser, the rewriting of
    links, and XPath queries that select elements or strings (attribute values
    and text nodes).  The script relies on nothing else, so the library is an
    interface; the theorems hold for every implementation of it. *)
Class Lxml (Element : Type) : Type := {
  (* [lxml.html.fromstring(text)]; [None] when the parser raises *)
  fromstring : string → option Element;
  (* [page.make_links_absolute(url)], which updates [page] in place and
     returns nothing; [None] when it raises, which it does with [ValueError]
     on a link that cannot be joined to [url] *)
  make_links_absolute : Element → string → option Element;
  (* [node.xpath(query)] for a query that selects elements *)
  xpath_elements : Element → string → list Element;
  (* [node.xpath(query)] for a query that selects strings *)
  xpath_strings : Element → string → list string;
}.

(** The double quote, which the two XPath queries for vote rows contain. *)
Definition dquote : string := String "034" EmptyString.

(** ** csv and files *)

(** The text [csv.writer.writerow] makes of a row, in the dialect [excel],
    which [csv.writer(my_file)] takes by default, with no escape character
    (CPython 3.11 and later): the fields are separated by
    commas and the row ends with a carriage return and a line feed; a field
    that holds a comma, a double quote, a carriage return or a line feed is
    put between double quotes, with its double quotes doubled; [None] is
    written as the empty field and every other value as [str] gives it; a
    row of one empty field is written as two double quotes. *)
Definition carriage_return : ascii := "013".
Definition double_quote : ascii := "034".

Definition field_text (v : value) : chars :=
  match v with
  | VNone => []
  | _ => chars_of (str v)
  end.

Definition is_special (c : ascii) : bool :=
  Ascii.eqb c "," || Ascii.eqb c double_quote ||
  Ascii.eqb c carriage_return || Ascii.eqb c newline.

Definition quoted (field : chars) : chars :=
  double_quote ::
  flat_map (λ c, if Ascii.eqb c double_quote then [c; c] else [c]) field ++
  [double_quote].

Definition format_field (v : value) : chars :=
  let field := field_text v in
  if existsb is_special field then quoted field else field.

Fixpoint join_fields (fields : list chars) : chars :=
  match fields with
  | [] => []
  | [field] => field
  | field :: fields' => field ++ "," :: join_fields fields'
  end.

Definition lineterminator : chars := [carriage_return; newline].

Definition format_row (row : csv_row) : chars :=
  let record := join_fields (map format_field row) in
  match row, record with
  | _ :: _, [] => [double_quote; double_quote]
  | _, _ => record
  end ++ lineterminator.

(** The text of a sequence of rows, each written by [writerow]. *)
Definition csv_text (rows : list csv_row) : chars := flat_map format_row rows.

Global Arguments format_row : simpl never.
Global Arguments csv_text : simpl never.

(** [open(file, 'a')]: [OSError] when the system refuses the path; else the
    file is created when it does not exist, what it holds is kept, and a new
    file object is returned, with an identity no open file object has. *)
Definition open_append (file : string) : M nat := λ w,
  if refuses w file then (Raise OSError, w)
  else
    let my_file := fresh (dom (open_files w)) in
    (Ok my_file,
      {| events := events w; server := server w; connections := connections w;
         refuses := refuses w;
         files := match files w !! file with
                  | Some _ => files w
                  | None => <[file := []]> (files w)
                  end;
         open_files :=
           <[my_file := {| name := file; written := [] |}]> (open_files w) |}).

(** [csv.writer(my_file).writerow(row)]: the text of the row is written to
    the file object; [ValueError] on a closed file object.  A system that
    fails while it writes (a full disk) is not modelled, here and in
    [close]. *)
Definition writerow (my_file : nat) (row : csv_row) : M unit := λ w,
  match open_files w !! my_file with
  | Some f =>
      (Ok tt,
        {| events := events w; server := server w; connections := connections w;
           refuses := refuses w; files := files w;
           open_files :=
             <[my_file := {| name := name f;
                             written := written f ++ format_row row |}]>
               (open_files w) |})
  | None => (Raise ValueError, w)
  end.

(** [my_file.close()]: what was written to the file object is at the end of
    the file, after what the file held, and the object is closed; nothing
    happens on a closed file object. *)
Definition file_close (my_file : nat) : M unit := λ w,
  match open_files w !! my_file with
  | Some f =>
      (Ok tt,
        {| events := events w; server := server w; connections := connections w;
           refuses := refuses w;
           files := <[name f := default [] (files w !! name f) ++ written f]>
                      (files w);
           open_files := delete my_file (open_files w) |})
  | None => (Ok tt, w)
  end.

(** ** argparse *)

Inductive action_kind : Type := store | store_true.

Record Action : Type := {
  option_strings : list string;
  help : string;
  action : action_kind;
}.

(** An [ArgumentParser]: the options registered so far. *)
Record ArgumentParser : Type := { _actions : list Action }.

Definition new_ArgumentParser : ArgumentParser :=
  {| _actions := [ {| option_strings := ["-h"; "--help"]%string;
                      help := "show this help message and exit";
                      action := store_true |} ] |}.

Definition add_argument (parser : ArgumentParser)
    (short long help : string) (action : action_kind) : ArgumentParser :=
  {| _actions := _actions parser ++
       [ {| option_strings := [short; long]; help := help; action := action |} ] |}.

(** The attributes of an [ArgumentParser] object.  The class defines no
    [__getattr__]; the destinations of the registered options are attributes
    of the namespace that [parse_args] returns, not of the parser. *)
Definition ArgumentParser_attributes : list (string * value) :=
  [ ("prog", VObject "sys.argv[0]");
    ("usage", VNone);
    ("description", VNone);
    ("epilog", VNone);
    ("prefix_chars", VStr "-");
    ("fromfile_prefix_chars", VNone);
    ("argument_default", VNone);
    ("conflict_handler", VStr "error");
    ("add_help", VBool true);
    ("allow_abbrev", VBool true);
    ("exit_on_error", VBool true);
    ("add_argument", VObject "<bound method>");
    ("add_argument_group", VObject "<bound method>");
    ("add_mutually_exclusive_group", VObject "<bound method>");
    ("add_subparsers", VObject "<bound method>");
    ("parse_args", VObject "<bound method>");
    ("parse_known_args", VObject "<bound method>");
    ("parse_intermixed_args", VObject "<bound method>");
    ("parse_known_intermixed_args", VObject "<bound method>");
    ("convert_arg_line_to_args", VObject "<bound method>");
    ("set_defaults", VObject "<bound method>");
    ("get_default", VObject "<bound method>");
    ("register", VObject "<bound method>");
    ("format_usage", VObject "<bound method>");
    ("format_help", VObject "<bound method>");
    ("print_usage", VObject "<bound method>");
    ("print_help", VObject "<bound method>");
    ("exit", VObject "<bound method>");
    ("error", VObject "<bound method>");
    ("_actions", VObject "<list>");
    ("_option_string_actions", VObject "<dict>");
    ("_action_groups", VObject "<list>");
    ("_mutually_exclusive_groups", VObject "<list>");
    ("_defaults", VObject "<dict>");
    ("_registries", VObject "<dict>");
    ("_positionals", VObject "<argument group>");
    ("_optionals", VObject "<argument group>");
    ("_subparsers", VNone) ]%string.

Fixpoint assoc (name : string) (l : list (string * value)) : option value :=
  match l with
  | [] => None
  | (k, v) :: l' => if String.eqb name k then Some v else assoc name l'
  end.

(** [parser.name] *)
Definition getattr (parser : ArgumentParser) (name : string) : M value :=
  match assoc name ArgumentParser_attributes with
  | Some v => mret v
  | None => raise AttributeError
  end.

(* ===================================================================== *)
(** * The script *)
(* ===================================================================== *)

(** One vote of a chamber on a bill: the dict
    [{'date': date, 'source': journal_link, 'type': type}]. *)
Record VoteRecord : Type := {
  date : string;
  source : string;
  type : string;
}.

(** The votes on a bill: the dict with the keys [lower_votes], [upper_votes],
    [lower] and [upper]. *)
Record BillVoteSummary : Type := {
  lower_votes : nat;
  upper_votes : nat;
  lower : list VoteRecord;
  upper : list VoteRecord;
}.

(** The dict [{bill: summary}] that [scrape_chamber] yields, as the list of
    its items. *)
Abbreviation data_row := (list (string * BillVoteSummary)).

Section Script.

Context {Element : Type} `{Lxml Element}.

(** [lxmlize(url, raise_exceptions=False)] *)
Definition lxmlize (url : string) (raise_exceptions : bool) : M Element :=
  response ←
    try_except (requests_get url true)
      (λ e, match e with
            | SSLError =>
                Some (print ("`lxmlize()` failed due to SSL error, trying " +:+
                             "an unverified `requests.get()`") ;;
                      requests_get url false)
            | ConnectionError =>
                Some (print "Request limit exceeded. Waiting 10 seconds." ;;
                      sleep 10 ;;
                      requests_get url true)
            | _ => None
            end);
  (if raise_exceptions then raise_for_status response else mret tt) ;;
  page ← match fromstring (text response) with
         | Some page => mret page
         | None => raise ParserError
         end;
  page ← match make_links_absolute page url with
         | Some page => mret page
         | None => raise ValueError
         end;
  response_close response ;;
  mret page.

Definition chamber_map : gmap string string :=
  {[ "senate" := "senatefiled"; "house" := "housefiled" ]}%string.

(** [get_chamber_bills(chamber, session='85R')] *)
Definition get_chamber_bills (chamber session : string) : M (list string) :=
  print ("Getting " +:+ chamber +:+ " bills") ;;
  filed ← subscript chamber_map chamber;
  let url := "https://capitol.texas.gov/Reports/Report.aspx?LegSess=" +:+
             session +:+ "&ID=" +:+ filed in
  page ← lxmlize url false;
  let hrefs := xpath_strings page "//@href" in
  let links :=
    fold_left
      (λ links url,
         match re_match BILL_LINK url with
         | Some _ => links ++ [url]
         | None => links
         end)
      hrefs [] in
  print ("Found " +:+ pretty (length links) +:+ " " +:+ chamber +:+ " bills") ;;
  mret links.

(** The two loops of [scrape_chamber] over vote rows, [for record in
    house_vote_records] and [for record in senate_vote_records], which have
    the same body: they append one record to [data] for every row. *)
Fixpoint scrape_records (records : list Element) (data : list VoteRecord)
  : M (list VoteRecord) :=
  match records with
  | [] => mret data
  | record :: records' =>
      journal_link ← item0 (xpath_strings record "./td[2]/a/@href");
      type ← item0 (xpath_strings record "./td[2]/a/text()");
      text ← item0 (xpath_strings record "./td[4]/text()");
      let date := strip text in
      scrape_records records'
        (data ++ [ {| date := date; source := journal_link; type := type |} ])
  end.

(** One turn of the loop of [scrape_chamber], from [for url in bill_list]
    to [yield data_row]. *)
Definition scrape_bill (url : string) : M data_row :=
  bill ← group (re_search BILL_ID url);
  page ← lxmlize url false;
  let house_vote_records :=
    xpath_elements page ("//table/tr[@id=" +:+ dquote +:+ "houvote" +:+ dquote +:+ "]") in
  let senate_vote_records :=
    xpath_elements page ("//table/tr[@id=" +:+ dquote +:+ "senvote" +:+ dquote +:+ "]") in
  let num_house_votes := length house_vote_records in
  let num_senate_votes := length senate_vote_records in
  h_data ← scrape_records house_vote_records [];
  s_data ← scrape_records senate_vote_records [];
  mret [ (bill, {| lower_votes := num_house_votes;
                   upper_votes := num_senate_votes;
                   lower := h_data;
                   upper := s_data |}) ].

(** The generator suspended at [yield], with the bills still to scrape and
    the list [bill_votes] of the rows it has built. *)
Fixpoint scrape_loop (bill_list : list string) (bill_votes : list data_row)
  : Generator data_row :=
  Gen (match bill_list with
       | [] => mret None
       | url :: bill_list' =>
           data_row ← scrape_bill url;
           mret (Some (data_row,
                       scrape_loop bill_list' (bill_votes ++ [data_row])))
       end).

(** [scrape_chamber(chamber, bill_list)]: the call builds the generator and
    runs nothing; the body starts at the first [next]. *)
Definition scrape_chamber (chamber : string) (bill_list : list string)
  : Generator data_row :=
  Gen (print ("Scraping bill urls for chamber " +:+ chamber) ;;
       next (scrape_loop bill_list [])).

Definition headers_full : csv_row :=
  [VStr "bill_id"; VStr "chamber"; VStr "date"; VStr "journal"].

Definition headers_summary : csv_row :=
  [VStr "bill_id"; VStr "lower_votes"; VStr "upper_votes"].

(** [write_data(data, file='results.csv', full=False)] *)
Definition write_data (data : Generator data_row) (file : string) (full : bool)
  : M unit :=
  my_file ← open_append file;
  (if full then
     writerow my_file headers_full ;;
     for_each data (λ row,
       for_list row (λ '(k, v),
         let bill_id := k in
         for_list (lower v) (λ record,
           writerow my_file
             [VStr bill_id; VStr "house"; VStr (date record); VStr (source record)]) ;;
         for_list (upper v) (λ record,
           writerow my_file
             [VStr bill_id; VStr "senate"; VStr (date record); VStr (source record)])))
   else
     writerow my_file headers_summary ;;
     for_each data (λ row,
       for_list row (λ '(k, v),
         writerow my_file [VStr k; VInt (lower_votes v); VInt (upper_votes v)]))) ;;
  file_close my_file.

(** The default of the parameter [file] of [write_data]. *)
Definition write_data_default_file : string := "results.csv".

(** [main()].  The arguments of the command line are in [argv].  The values
    read from the parser are passed on through [str] and [truthy], as the
    callees use them: in f-strings, as the key of [chamber_map], and in
    [if full]. *)
Definition main (argv : list string) : M unit :=
  print "Starting..." ;;
  let parser := new_ArgumentParser in
  let parser := add_argument parser "-c" "--chamber" "Select between house|senate" store in
  let parser := add_argument parser "-f" "--file" "Output to this file" store in
  let parser := add_argument parser "-o" "--output" "Output per vote data" store_true in
  let parser := add_argument parser "-s" "--session" "Enter the Session ID, e.g. '85R'" store in
  chamber ← getattr parser "chamber";
  session ← getattr parser "session";
  bill_urls ← get_chamber_bills (str chamber) (str session);
  chamber ← getattr parser "chamber";
  let data := scrape_chamber (str chamber) bill_urls in
  file ← getattr parser "file";
  output ← getattr parser "output";
  write_data data (str file) (truthy output) ;;
  print "Finished.".

End Script.

(* ===================================================================== *)
(** * A document model to run the script on *)
(* ===================================================================== *)

(** An implementation of the interface [Lxml] by element trees, with the
    five XPath queries of the script.  It serves to run the script on
    concrete pages. *)
Module Dom.

Local Unset Elimination Schemes.
Inductive node : Type :=
| Elem (tag : string) (attrs : list (string * string)) (children : list node)
| Text (s : string).
Local Set Elimination Schemes.

Definition attribute (name : string) (attrs : list (string * string))
  : list string :=
  map snd (List.filter (λ kv, String.eqb (fst kv) name) attrs).

Definition children_of (n : node) : list node :=
  match n with
  | Elem _ _ kids => kids
  | Text _ => []
  end.

Definition has_tag (tag : string) (n : node) : bool :=
  match n with
  | Elem t _ _ => String.eqb t tag
  | Text _ => false
  end.

(** [//@href] *)
Fixpoint all_hrefs (n : node) : list string :=
  match n with
  | Elem _ attrs kids => attribute "href" attrs ++ flat_map all_hrefs kids
  | Text _ => []
  end.

(** [//table/tr[@id="id"]], below a parent with the tag [parent] *)
Fixpoint vote_rows (id parent : string) (n : node) : list node :=
  match n with
  | Elem tag attrs kids =>
      (if String.eqb parent "table" && String.eqb tag "tr" &&
          bool_decide (attribute "id" attrs = [id])
       then [n] else [])
      ++ flat_map (vote_rows id tag) kids
  | Text _ => []
  end.

(** [./tag[i]] *)
Definition nth_child (tag : string) (i : nat) (n : node) : list node :=
  match List.filter (has_tag tag) (children_of n) !! (i - 1) with
  | Some c => [c]
  | None => []
  end.

(** [./tag] *)
Definition child (tag : string) (n : node) : list node :=
  List.filter (has_tag tag) (children_of n).

(** [./@href] *)
Definition href (n : node) : list string :=
  match n with
  | Elem _ attrs _ => attribute "href" attrs
  | Text _ => []
  end.

(** [./text()] *)
Definition texts (n : node) : list string :=
  flat_map (λ c, match c with Text s => [s] | Elem _ _ _ => [] end)
           (children_of n).

Definition vote_rows_query (id : string) : string :=
  "//table/tr[@id=" +:+ dquote +:+ id +:+ dquote +:+ "]".

Definition xpath_elements (n : node) (query : string) : list node :=
  if String.eqb query (vote_rows_query "houvote") then vote_rows "houvote" "" n
  else if String.eqb query (vote_rows_query "senvote") then vote_rows "senvote" "" n
  else [].

Definition xpath_strings (n : node) (query : string) : list string :=
  if String.eqb query "//@href" then all_hrefs n
  else if String.eqb query "./td[2]/a/@href"
  then flat_map href (flat_map (child "a") (nth_child "td" 2 n))
  else if String.eqb query "./td[2]/a/text()"
  then flat_map texts (flat_map (child "a") (nth_child "td" 2 n))
  else if String.eqb query "./td[4]/text()"
  then flat_map texts (nth_child "td" 4 n)
  else [].

(** Links that start with [/] are resolved against the site of [url]; the
    pages below hold no other relative link.  A link to [http://] whose host
    has one square bracket and not the other cannot be joined to a URL:
    [urljoin] raises [ValueError]. *)
Definition site : string := "https://capitol.texas.gov".

Fixpoint host (s : chars) : chars :=
  match s with
  | [] => []
  | c :: s' =>
      if Ascii.eqb c "/" || Ascii.eqb c "?" || Ascii.eqb c "#" then []
      else c :: host s'
  end.

Definition malformed (link : string) : bool :=
  match chars_of link with
  | "h" :: "t" :: "t" :: "p" :: ":" :: "/" :: "/" :: rest =>
      xorb (existsb (Ascii.eqb "[") (host rest))
           (existsb (Ascii.eqb "]") (host rest))
  | _ => false
  end.

Definition join (url link : string) : option string :=
  if malformed link then None
  else Some match link with
            | String "/" _ => site +:+ link
            | _ => link
            end.

Fixpoint make_links_absolute (n : node) (url : string) : option node :=
  match n with
  | Elem tag attrs kids =>
      attrs' ← mapM (λ kv, if String.eqb (fst kv) "href"
                           then link ← join url (snd kv); Some (fst kv, link)
                           else Some kv) attrs;
      kids' ← mapM (λ c, make_links_absolute c url) kids;
      Some (Elem tag attrs' kids')
  | Text s => Some (Text s)
  end.

(** *** Pages *)

Definition anchor (link text : string) : node :=
  Elem "a" [("href", link)]%string [Text text].

Definition td (kids : list node) : node := Elem "td" [] kids.

Definition vote_row (id journal stage day : string) : node :=
  Elem "tr" [("id", id)]%string
    [td [Text "Vote"]; td [anchor journal stage]; td []; td [Text day]].

Definition listing_text : string := "<html>listing of the house bills</html>".

Definition listing_page : node :=
  Elem "html" []
    [Elem "body" []
       [anchor "/BillLookup/History.aspx?LegSess=85R&Bill=HB15" "HB 15";
        anchor "/BillLookup/History.aspx?LegSess=85R&Bill=HCR12" "HCR 12";
        anchor "/BillLookup/History.aspx?LegSess=85R&Bill=SB4" "SB 4";
        anchor "/BillLookup/Text.aspx/HB15" "Text of HB 15"]].

Definition HB15_text : string := "<html>history of HB 15</html>".

Definition HB15_page : node :=
  Elem "html" []
    [Elem "body" []
       [Elem "table" []
          [vote_row "houvote" "http://journals.house.texas.gov/journal1"
             "3rd Reading" "  05/01/2017 "]]].

Definition SB4_text : string := "<html>history of SB 4</html>".

Definition SB4_page : node :=
  Elem "html" []
    [Elem "body" []
       [Elem "table" []
          [vote_row "senvote" "http://journals.senate.texas.gov/journal2"
             "2nd Reading" "02/07/2017";
           vote_row "houvote" "http://journals.house.texas.gov/journal3"
             "2nd Reading" "04/26/2017";
           vote_row "senvote" "http://journals.senate.texas.gov/journal4"
             "3rd Reading" "02/08/2017"]]].

(** A page with a link that cannot be joined to a URL. *)
Definition broken_text : string := "<html>a link to nowhere</html>".

Definition broken_page : node :=
  Elem "html" [] [Elem "body" [] [anchor "http://[x" "nowhere"]].

Definition fromstring (text : string) : option node :=
  if String.eqb text listing_text then Some listing_page
  else if String.eqb text HB15_text then Some HB15_page
  else if String.eqb text SB4_text then Some SB4_page
  else if String.eqb text broken_text then Some broken_page
  else None.

Global Instance lxml : Lxml node :=
  Build_Lxml node fromstring make_links_absolute xpath_elements xpath_strings.

(** *** Servers and worlds *)

Definition listing_url : string :=
  "https://capitol.texas.gov/Reports/Report.aspx?LegSess=85R&ID=housefiled".
Definition HB15_url : string :=
  "https://capitol.texas.gov/BillLookup/History.aspx?LegSess=85R&Bill=HB15".
Definition SB4_url : string :=
  "https://capitol.texas.gov/BillLookup/History.aspx?LegSess=85R&Bill=SB4".
Definition HB99_url : string :=
  "https://capitol.texas.gov/BillLookup/History.aspx?LegSess=85R&Bill=HB99".

Definition answer (request : Request) : outcome :=
  if String.eqb (req_url request) listing_url
  then Responds {| status_code := 200; text := listing_text |}
  else if String.eqb (req_url request) HB15_url
  then Responds {| status_code := 200; text := HB15_text |}
  else if String.eqb (req_url request) SB4_url
  then Responds {| status_code := 200; text := SB4_text |}
  else if String.eqb (req_url request) HB99_url
  then Responds {| status_code := 200; text := broken_text |}
  else Responds {| status_code := 404; text := HB15_text |}.

(** A server that answers every request. *)
Definition steady (history : list Request) (request : Request) : outcome :=
  answer request.

(** A server that refuses the first connection. *)
Definition refusing_once (history : list Request) (request : Request)
  : outcome :=
  match history with
  | [] => Fails Connection_failure
  | _ => answer request
  end.

(** A server that refuses every connection. *)
Definition refusing (history : list Request) (request : Request) : outcome :=
  Fails Connection_failure.

(** A system that opens every path but the empty one and those that end
    with [/]. *)
Definition no_file (path : string) : bool :=
  match rev (chars_of path) with
  | [] | "/" :: _ => true
  | _ => false
  end.

Definition world (server : list Request → Request → outcome)
    (files : gmap string chars) : World :=
  {| events := []; server := server; connections := 0; refuses := no_file;
     files := files; open_files := ∅ |}.

Definition fresh : World := world steady ∅.

(** A world in which [results.csv] holds the outcome of an earlier run in
    summary mode. *)
Definition earlier_rows : list csv_row :=
  [ [VStr "bill_id"; VStr "lower_votes"; VStr "upper_votes"];
    [VStr "HB1"; VInt 2; VInt 1] ].

Definition rerun : World :=
  world steady {[ "results.csv"%string := csv_text earlier_rows ]}.

(** A world in which the last line of [results.csv] has no line terminator,
    as an editor can leave it. *)
Definition unterminated : World :=
  world steady
    {[ "results.csv"%string :=
         csv_text [ [VStr "bill_id"; VStr "lower_votes"; VStr "upper_votes"] ] ++
         chars_of "HB1,2,1" ]}.

(** The votes on [SB4], as [scrape_chamber] yields them. *)
Definition SB4_votes : BillVoteSummary :=
  {| lower_votes := 1;
     upper_votes := 2;
     lower := [ {| date := "04/26/2017";
                   source := "http://journals.house.texas.gov/journal3";
                   type := "2nd Reading" |} ];
     upper := [ {| date := "02/07/2017";
                   source := "http://journals.senate.texas.gov/journal2";
                   type := "2nd Reading" |};
                {| date := "02/08/2017";
                   source := "http://journals.senate.texas.gov/journal4";
                   type := "3rd Reading" |} ] |}.

End Dom.

(* ===================================================================== *)
(** * Vocabulary of the specification *)
(* ===================================================================== *)

(** [Produces g x]: the generator [g] yields [x] at some point, whatever the
    world does between two calls of [next]. *)
Inductive Produces {A : Type} : Generator A → A → Prop :=
| Produces_now g w x g' w' :
    next g w = (Ok (Some (x, g')), w') → Produces g x
| Produces_later g w y g' w' x :
    next g w = (Ok (Some (y, g')), w') → Produces g' x → Produces g x.

(** [NeverRaises e g]: no call of [next] on [g], or on a generator it
    suspends into, raises [e]. *)
Inductive NeverRaises {A : Type} (e : exn) : Generator A → Prop :=
| NeverRaises_intro g :
    (∀ w, fst (next g w) ≠ Raise e) →
    (∀ w x g' w', next g w = (Ok (Some (x, g')), w') → NeverRaises e g') →
    NeverRaises e g.

(** The request [requests.get(url)] issues. *)
Definition get_request (url : string) : Request :=
  {| req_url := url; req_verify := true |}.

(** The worlds in which [lxmlize] issues its second request. *)
Definition after_ssl_error (url : string) (w : World) : World :=
  log (Print ("`lxmlize()` failed due to SSL error, trying " +:+
              "an unverified `requests.get()`"))
      (log (Get (get_request url)) w).

Definition after_connection_error (url : string) (w : World) : World :=
  log (Sleep 10)
      (log (Print "Request limit exceeded. Waiting 10 seconds.")
           (log (Get (get_request url)) w)).

(** The [try] statement of [lxmlize], which ends with the response or with
    the exception of a request. *)
Definition lxmlize_try (url : string) : M Response :=
  try_except (requests_get url true)
    (λ e, match e with
          | SSLError =>
              Some (print ("`lxmlize()` failed due to SSL error, trying " +:+
                           "an unverified `requests.get()`") ;;
                    requests_get url false)
          | ConnectionError =>
              Some (print "Request limit exceeded. Waiting 10 seconds." ;;
                    sleep 10 ;;
                    requests_get url true)
          | _ => None
          end).

(** What [lxmlize] does once it holds a response: the statements that follow
    its [try] statement. *)
Definition lxmlize_finish {Element : Type} `{Lxml Element}
    (url : string) (raise_exceptions : bool) (response : Response) : M Element :=
  (if raise_exceptions then raise_for_status response else mret tt) ;;
  page ← match fromstring (text response) with
         | Some page => mret page
         | None => raise ParserError
         end;
  page ← match make_links_absolute page url with
         | Some page => mret page
         | None => raise ValueError
         end;
  response_close response ;;
  mret page.

(** The exceptions a page fetch can raise. *)
Definition is_fetch_exn (e : exn) : bool :=
  match e with
  | SSLError | ConnectionError | RequestException | HTTPError | ParserError
  | ValueError => true
  | KeyError | AttributeError | IndexError | OSError => false
  end.

(** The URL of the listing page of a chamber. *)
Definition listing_url (session filed : string) : string :=
  "https://capitol.texas.gov/Reports/Report.aspx?LegSess=" +:+
  session +:+ "&ID=" +:+ filed.

(** The test of the loop of [get_chamber_bills]. *)
Definition is_bill_link (url : string) : bool :=
  match re_match BILL_LINK url with
  | Some _ => true
  | None => false
  end.

(** A URL ends in a bill identifier: its trailing segment matches [[SH]B]
    followed by one or more digits, anchored at the end of the string. *)
Definition ends_in_bill_id (url : string) : Prop :=
  ∃ p id, chars_of url = p ++ id ∧ bill_id id.

(** A URL ends in [=] and a bill identifier, as [r'.*=[SH]B\d+$'] accepts it
    from the start of the string: no newline before the [=], and [$] lets a
    final newline follow the identifier. *)
Definition ends_in_equals_bill_id (url : string) : Prop :=
  ∃ p id tl, chars_of url = p ++ "=" :: id ++ tl ∧
             Forall (λ c, c ≠ newline) p ∧ bill_id id ∧ eos tl.

(** A URL in which [r'[SH]B\d+$'] finds a bill identifier. *)
Definition holds_bill_id (url : string) : Prop :=
  ∃ p id tl, chars_of url = p ++ id ++ tl ∧ bill_id id ∧ eos tl.

(** The rows of the two output modes, in the words of the specification. *)
Definition house_row (bill_id : string) (record : VoteRecord) : csv_row :=
  [VStr bill_id; VStr "house"; VStr (date record); VStr (source record)].

Definition senate_row (bill_id : string) (record : VoteRecord) : csv_row :=
  [VStr bill_id; VStr "senate"; VStr (date record); VStr (source record)].

Definition full_rows (row : data_row) : list csv_row :=
  flat_map (λ kv, map (house_row (fst kv)) (lower (snd kv)) ++
                  map (senate_row (fst kv)) (upper (snd kv))) row.

Definition summary_rows (row : data_row) : list csv_row :=
  map (λ kv, [VStr (fst kv); VInt (lower_votes (snd kv)); VInt (upper_votes (snd kv))])
      row.

Definition headers_of (full : bool) : csv_row :=
  if full then headers_full else headers_summary.

Definition rows_of (full : bool) (row : data_row) : list csv_row :=
  if full then full_rows row else summary_rows row.

(** Header rows and data rows among the rows of a file. *)
Definition is_header (row : csv_row) : bool :=
  bool_decide (row = headers_full ∨ row = headers_summary).

Definition header_rows (rows : list csv_row) : nat :=
  length (List.filter is_header rows).

Definition data_rows (rows : list csv_row) : nat :=
  length (List.filter (λ row, negb (is_header row)) rows).

(** The text a file holds; a file that does not exist holds none. *)
Definition content (w : World) (file : string) : chars :=
  default [] (files w !! file).

(** [holds text rows]: [text] is the text of the rows [rows]; the last row
    may lack its line terminator, which a reader of the file does not need. *)
Definition holds (text : chars) (rows : list csv_row) : Prop :=
  text = csv_text rows ∨ text ++ lineterminator = csv_text rows.

(** The file object [my_file] after [text] was written to it. *)
Definition add_text (text : chars) (my_file : FileObject) : FileObject :=
  {| name := name my_file; written := written my_file ++ text |}.

(** [handed my_file text w w']: from [w] to [w'] the text [text] was written
    to the file object [my_file]; no other file object and no file
    changed. *)
Definition handed (my_file : nat) (text : chars) (w w' : World) : Prop :=
  open_files w' = alter (add_text text) my_file (open_files w) ∧
  files w' = files w.

(** The world right after [open(file, 'a')] returned a file object. *)
Definition opened (file : string) (w : World) : World :=
  snd (open_append file w).

(** [scraped url row]: [row] is what one turn of the loop of [scrape_chamber]
    builds for [url], in some world. *)
Definition scraped {Element : Type} `{Lxml Element} (url : string) (row : data_row)
  : Prop :=
  ∃ w w', scrape_bill url w = (Ok row, w').

(* ===================================================================== *)
(** * Vocabulary for further properties of the script *)
(* ===================================================================== *)

(** The request [requests.get(url, verify=False)] issues. *)
Definition unverified_request (url : string) : Request :=
  {| req_url := url; req_verify := false |}.

(** The two notices of [lxmlize]. *)
Definition ssl_notice : string :=
  "`lxmlize()` failed due to SSL error, trying " +:+ "an unverified `requests.get()`".

Definition wait_notice : string := "Request limit exceeded. Waiting 10 seconds.".

(** The events of [lxmlize], by the outcome of its first request. *)
Definition lxmlize_course (url : string) (first : outcome) : list event :=
  match first with
  | Responds _ | Fails Other_failure => [Get (get_request url)]
  | Fails SSL_failure =>
      [Get (get_request url); Print ssl_notice; Get (unverified_request url)]
  | Fails Connection_failure =>
      [Get (get_request url); Print wait_notice; Sleep 10; Get (get_request url)]
  end.

(** [keeps proj m]: the computation [m] leaves the part [proj] of the world
    as it finds it, however it ends. *)
Definition keeps {X A : Type} (proj : World → X) (m : M A) : Prop :=
  ∀ w, proj (snd (m w)) = proj w.

(** The two queries of [scrape_chamber] for vote rows. *)
Definition houvote_query : string :=
  "//table/tr[@id=" +:+ dquote +:+ "houvote" +:+ dquote +:+ "]".

Definition senvote_query : string :=
  "//table/tr[@id=" +:+ dquote +:+ "senvote" +:+ dquote +:+ "]".

(** The record of one vote row: the first journal link, the first label and
    the first text of the fourth cell, stripped; none when one is missing. *)
Definition record_of {Element : Type} `{Lxml Element} (row : Element)
  : option VoteRecord :=
  match xpath_strings row "./td[2]/a/@href",
        xpath_strings row "./td[2]/a/text()",
        xpath_strings row "./td[4]/text()" with
  | journal_link :: _, type :: _, text :: _ =>
      Some {| date := strip text; source := journal_link; type := type |}
  | _, _, _ => None
  end.

(** [serves srv url]: the server [srv] answers the request for [url],
    whatever came before, with a page the parser accepts, whose links can be
    made absolute and whose vote rows all have their three fields. *)
Definition serves {Element : Type} `{Lxml Element}
    (srv : list Request → Request → outcome) (url : string) : Prop :=
  ∀ history, ∃ r parsed page,
    srv history (get_request url) = Responds r ∧
    fromstring (text r) = Some parsed ∧
    make_links_absolute parsed url = Some page ∧
    Forall (λ row, is_Some (record_of row))
           (xpath_elements page houvote_query ++
            xpath_elements page senvote_query).

(** A string with no white space at either end. *)
Definition trimmed (s : string) : Prop :=
  ∀ c, head (chars_of s) = Some c ∨ last (chars_of s) = Some c →
       is_space c = false.

(** The notice the generator of [scrape_chamber] prints when it starts. *)
Definition scraping_notice (chamber : string) : string :=
  "Scraping bill urls for chamber " +:+ chamber.

(** ** More pages, servers and worlds to run the script on *)

Module Faulty.

(** A history of [HB15] whose vote row has three cells: the date is missing. *)
Definition HB15_page : Dom.node :=
  Dom.Elem "html" []
    [Dom.Elem "body" []
       [Dom.Elem "table" []
          [Dom.Elem "tr" [("id", "houvote")]%string
             [Dom.td [Dom.Text "Vote"];
              Dom.td [Dom.anchor "http://journals.house.texas.gov/journal1"
                        "3rd Reading"];
              Dom.td []]]]].

Definition fromstring (text : string) : option Dom.node :=
  if String.eqb text Dom.HB15_text then Some HB15_page else Dom.fromstring text.

(** The documents of [Dom], with the faulty history of [HB15]. *)
Definition lxml : Lxml Dom.node :=
  Build_Lxml Dom.node fromstring Dom.make_links_absolute Dom.xpath_elements
    Dom.xpath_strings.

(** A server whose certificate fails at the first request. *)
Definition ssl_once (history : list Request) (request : Request) : outcome :=
  match history with
  | [] => Fails SSL_failure
  | _ => Dom.answer request
  end.

(** A server that serves the listing and nothing else. *)
Definition listing_only (history : list Request) (request : Request) : outcome :=
  if String.eqb (req_url request) Dom.listing_url
  then Dom.answer request
  else Fails Other_failure.


(** The votes on [HB15], as [scrape_chamber] yields them from [Dom.HB15_page]. *)
Definition HB15_record : VoteRecord :=
  {| date := "05/01/2017";
     source := "http://journals.house.texas.gov/journal1";
     type := "3rd Reading" |}.

Definition HB15_votes : BillVoteSummary :=
  {| lower_votes := 1; upper_votes := 0; lower := [HB15_record]; upper := [] |}.

End Faulty.
(* ===================================================================== *)
(** * Facts about the regular expressions *)
(* ===================================================================== *)

Section ReFacts.

Lemma Matches_suffix r s s' : Matches r s s' → ∃ pre, s = pre ++ s'.
Proof.
  induction 1 as [c s|c s _|cs c s _|c s _|r1 r2 s s1 s2 _ [p1 ->] _ [p2 ->]
                 |r s|r s s1 s2 _ [p1 ->] _ [p2 ->]
                 |r s s1 s2 _ [p1 ->] _ [p2 ->]|s _].
  1-4: by exists [c].
  - exists (p1 ++ p2). by rewrite <- app_assoc.
  - by exists [].
  - exists (p1 ++ p2). by rewrite <- app_assoc.
  - exists (p1 ++ p2). by rewrite <- app_assoc.
  - by exists [].
Qed.

Lemma Matches_same_length r s s' :
  Matches r s s' → ¬ length s' < length s → s' = s.
Proof.
  intros [pre ->]%Matches_suffix Hlen. rewrite length_app in Hlen.
  destruct pre; [done | simpl in Hlen; lia].
Qed.

Lemma in_one p s s' : In s' (one p s) ↔ ∃ c, s = c :: s' ∧ p c = true.
Proof.
  destruct s as [|c s]; simpl.
  - split; [done | by intros (? & ? & _)].
  - destruct (p c) eqn:Hp; simpl; split.
    + intros [<- | []]. eauto.
    + intros (c' & [= <- <-] & _). by left.
    + done.
    + intros (c' & [= <- <-] & Hp'). congruence.
Qed.

Lemma mem_In c cs : mem c cs = true ↔ In c cs.
Proof.
  unfold mem. rewrite existsb_exists. split.
  - intros (x & Hx & ->%Ascii.eqb_eq). done.
  - intros Hc. exists c. by rewrite Ascii.eqb_refl.
Qed.

Lemma is_dot_spec c : is_dot c = true ↔ c ≠ newline.
Proof.
  unfold is_dot. destruct (Ascii.eqb_spec c newline); simpl; split; congruence.
Qed.

Lemma at_eos_spec s : at_eos s = true ↔ eos s.
Proof.
  unfold eos. destruct s as [|c [|d s]]; simpl.
  - split; auto.
  - rewrite Ascii.eqb_eq. split; [intros ->; auto | intros [[=] | [= ->]]; done].
  - split; [done | intros [[=] | [=]]].
Qed.

Section Iter.
Context (r : regex) (step : chars → list chars).

Lemma iter_sound fuel s s' :
  (∀ s s', In s' (step s) → Matches r s s') →
  In s' (iter step fuel s) → Matches (Star r) s s'.
Proof.
  intros Hstep. revert s. induction fuel as [|fuel IH]; simpl; intros s.
  - intros [<- | []]. constructor.
  - rewrite in_app_iff, in_flat_map. intros [(s1 & Hs1 & Hin) | [<- | []]].
    + destruct (Nat.ltb _ _); [| done].
      eapply M_Star_cons; eauto.
    + constructor.
Qed.

Lemma iter_refl fuel s : In s (iter step fuel s).
Proof. destruct fuel; simpl; [by left |]. rewrite in_app_iff. right. by left. Qed.

Lemma iter_complete s s' :
  (∀ s s', Matches r s s' → In s' (step s)) →
  Matches (Star r) s s' →
  ∀ fuel, length s ≤ fuel → In s' (iter step fuel s).
Proof.
  intros Hstep H. remember (Star r) as sr eqn:Hsr.
  induction H as [| | | | |r0 s|r0 s s1 s2 H1 _ H2 IH| |]; try discriminate.
  - intros fuel _. apply iter_refl.
  - injection Hsr as ->. intros fuel Hfuel.
    destruct (decide (length s1 < length s)) as [Hlt | Hge].
    + destruct fuel as [|fuel]; [lia |]. simpl.
      rewrite in_app_iff, in_flat_map. left. exists s1. split; [auto |].
      apply Nat.ltb_lt in Hlt as Hlt'. rewrite Hlt'.
      apply IH; [done | lia].
    + apply Matches_same_length in H1 as ->; [| done]. by apply IH.
Qed.
End Iter.

(** The matcher computes exactly the remainders the specification allows. *)
Lemma run_sound r : ∀ s s', In s' (run r s) → Matches r s s'.
Proof.
  induction r as [c| |cs| |r1 IH1 r2 IH2|r IH|r IH|]; simpl; intros s s'.
  - intros (c' & -> & ->%Ascii.eqb_eq)%in_one. constructor.
  - intros (c' & -> & Hc%is_dot_spec)%in_one. by constructor.
  - intros (c' & -> & Hc%mem_In)%in_one. by constructor.
  - intros (c' & -> & Hc)%in_one. by constructor.
  - intros (s1 & H1 & H2)%in_flat_map. econstructor; eauto.
  - apply iter_sound, IH.
  - intros (s1 & H1 & H2)%in_flat_map.
    econstructor; [eauto | eapply iter_sound; eauto].
  - destruct (at_eos s) eqn:He; [| done]. intros [<- | []]. by constructor.
Qed.

Lemma run_complete r s s' : Matches r s s' → In s' (run r s).
Proof.
  revert s s'.
  induction r as [c| |cs| |r1 IH1 r2 IH2|r IH|r IH|]; intros s s' H.
  - inversion H; subst. apply in_one. eexists. split; [done | apply Ascii.eqb_refl].
  - inversion H; subst. apply in_one. eexists. split; [done | by apply is_dot_spec].
  - inversion H; subst. apply in_one. eexists. split; [done | by apply mem_In].
  - inversion H; subst. apply in_one. eauto.
  - inversion H; subst. simpl. apply in_flat_map. eauto.
  - simpl. eapply iter_complete; eauto.
  - inversion H; subst. simpl. apply in_flat_map. eexists. split; [eauto |].
    eapply iter_complete; eauto.
  - inversion H; subst. simpl. by rewrite H0; left.
Qed.

Lemma run_spec r s s' : In s' (run r s) ↔ Matches r s s'.
Proof. split; [apply run_sound | apply run_complete]. Qed.

(** ** [match_at], [re.match] and [re.search] *)

Lemma match_at_Some r s m :
  match_at r s = Some m → ∃ s', s = m ++ s' ∧ Matches r s s'.
Proof.
  unfold match_at. destruct (run r s) as [|s' l] eqn:Hrun; [done |].
  intros [= <-]. assert (Matches r s s') as HM.
  { apply run_sound. rewrite Hrun. by left. }
  exists s'. split; [| done].
  destruct (Matches_suffix _ _ _ HM) as [pre ->].
  rewrite length_app, Nat.add_sub. by rewrite take_app_length.
Qed.

Lemma match_at_None r s : match_at r s = None ↔ ∀ s', ¬ Matches r s s'.
Proof.
  unfold match_at. split.
  - destruct (run r s) eqn:Hrun; [| done].
    intros _ s' H%run_complete. by rewrite Hrun in H.
  - intros H. destruct (run r s) as [|s' l] eqn:Hrun; [done |].
    destruct (H s'). apply run_sound. rewrite Hrun. by left.
Qed.

Lemma match_at_is_Some r s : is_Some (match_at r s) ↔ ∃ s', Matches r s s'.
Proof.
  split.
  - intros [m (s' & _ & H)%match_at_Some]. eauto.
  - intros [s' H]. destruct (match_at r s) eqn:E; [done |].
    rewrite match_at_None in E. by destruct (E s').
Qed.

Lemma search_from_Some r s m :
  search_from r s = Some m →
  ∃ pre s', s = pre ++ m ++ s' ∧ Matches r (m ++ s') s'.
Proof.
  induction s as [|c s IH]; simpl.
  - destruct (match_at r []) eqn:E; [| done]. intros [= ->].
    apply match_at_Some in E as (s' & Heq & H). exists [], s'. by rewrite <- Heq.
  - destruct (match_at r (c :: s)) eqn:E.
    + intros [= ->]. apply match_at_Some in E as (s' & Heq & H).
      exists [], s'. by rewrite <- Heq.
    + intros (pre & s' & -> & H)%IH. by exists (c :: pre), s'.
Qed.

Lemma search_from_None r s :
  search_from r s = None ↔ ∀ pre suf s', s = pre ++ suf → ¬ Matches r suf s'.
Proof.
  induction s as [|c s IH]; simpl.
  - destruct (match_at r []) eqn:E.
    + split; [done |]. intros H.
      apply match_at_Some in E as (s' & _ & HM). by destruct (H [] [] s').
    + split; [| done]. intros _ pre suf s' Heq.
      symmetry in Heq. apply app_eq_nil in Heq as [-> ->].
      rewrite match_at_None in E. apply E.
  - destruct (match_at r (c :: s)) eqn:E.
    + split; [done |]. intros H.
      apply match_at_Some in E as (s' & _ & HM). by destruct (H [] (c :: s) s').
    + rewrite IH. rewrite match_at_None in E. split.
      * intros H [|c' pre] suf s'; simpl.
        -- intros <-. apply E.
        -- intros [= <- ->]. by eapply H.
      * intros H pre suf s' ->. by apply (H (c :: pre) suf s').
Qed.

Lemma chars_of_string_of (l : chars) :
  chars_of (String.string_of_list_ascii l) = l.
Proof. apply String.list_ascii_of_string_of_list_ascii. Qed.

Lemma string_of_chars_of (s : string) :
  String.string_of_list_ascii (chars_of s) = s.
Proof. apply String.string_of_list_ascii_of_string. Qed.

Lemma chars_of_inj s1 s2 : chars_of s1 = chars_of s2 → s1 = s2.
Proof.
  intros H. rewrite <- (string_of_chars_of s1), <- (string_of_chars_of s2).
  by rewrite H.
Qed.

Lemma re_match_is_Some r s :
  is_Some (re_match r s) ↔ ∃ s', Matches r (chars_of s) s'.
Proof.
  unfold re_match. rewrite fmap_is_Some. apply match_at_is_Some.
Qed.

Lemma re_match_None r s :
  re_match r s = None ↔ ∀ s', ¬ Matches r (chars_of s) s'.
Proof. unfold re_match. rewrite fmap_None. apply match_at_None. Qed.

Lemma re_search_Some r s m :
  re_search r s = Some m →
  ∃ pre s', chars_of s = pre ++ chars_of m ++ s' ∧
            Matches r (chars_of m ++ s') s'.
Proof.
  unfold re_search. intros (l & Hl & ->)%fmap_Some.
  apply search_from_Some in Hl as (pre & s' & Hs & HM).
  exists pre, s'. by rewrite chars_of_string_of.
Qed.

Lemma re_search_None r s :
  re_search r s = None ↔
  ∀ pre suf s', chars_of s = pre ++ suf → ¬ Matches r suf s'.
Proof. unfold re_search. rewrite fmap_None. apply search_from_None. Qed.

(** ** The two patterns of the script *)

Lemma Matches_Star_one r (P : ascii → Prop) :
  (∀ s s', Matches r s s' ↔ ∃ c, s = c :: s' ∧ P c) →
  ∀ s s', Matches (Star r) s s' ↔ ∃ pre, s = pre ++ s' ∧ Forall P pre.
Proof.
  intros Hr s s'. split.
  - intros H. remember (Star r) as sr eqn:Hsr.
    induction H as [| | | | |r0 s|r0 s s1 s2 H1 _ H2 IH| |]; try discriminate.
    + by exists [].
    + injection Hsr as ->. destruct (IH eq_refl) as (pre & -> & Hpre).
      apply Hr in H1 as (c & -> & Hc). exists (c :: pre). split; [done | by constructor].
  - intros (pre & -> & Hpre). induction Hpre as [|c pre Hc _ IH]; simpl.
    + constructor.
    + eapply M_Star_cons; [| exact IH]. apply Hr. eauto.
Qed.

Lemma Matches_Digit s s' :
  Matches Digit s s' ↔ ∃ c, s = c :: s' ∧ is_digit c = true.
Proof.
  split; [intros H; inversion H; subst; eauto | intros (c & -> & Hc); by constructor].
Qed.

Lemma Matches_Dot s s' : Matches Dot s s' ↔ ∃ c, s = c :: s' ∧ c ≠ newline.
Proof.
  split; [intros H; inversion H; subst; eauto | intros (c & -> & Hc); by constructor].
Qed.

Lemma Matches_Plus_Digit s s' :
  Matches (Plus Digit) s s' ↔
  ∃ ds, s = ds ++ s' ∧ ds ≠ [] ∧ Forall (λ d, is_digit d = true) ds.
Proof.
  split.
  - intros H. inversion H as [| | | | | | |r s0 s1 s2 H1 H2|]; subst.
    apply Matches_Digit in H1 as (c & -> & Hc).
    apply (Matches_Star_one _ _ Matches_Digit) in H2 as (pre & -> & Hpre).
    exists (c :: pre). split_and!; [done | done | by constructor].
  - intros (ds & -> & Hne & Hds). destruct Hds as [|c ds Hc Hds]; [done |].
    eapply M_Plus; [by constructor |].
    apply (Matches_Star_one _ _ Matches_Digit). eauto.
Qed.

Lemma Matches_BILL_ID s s' :
  Matches BILL_ID s s' ↔ ∃ id, bill_id id ∧ s = id ++ s' ∧ eos s'.
Proof.
  unfold BILL_ID, bill_id. split.
  - intros H.
    inversion H as [| | | |? ? ? s1 ? H1 H2| | | |]; subst; clear H.
    inversion H1; subst; clear H1.
    inversion H2 as [| | | |? ? ? s2 ? H3 H4| | | |]; subst; clear H2.
    inversion H3; subst; clear H3.
    inversion H4 as [| | | |? ? ? s3 ? H5 H6| | | |]; subst; clear H4.
    inversion H6; subst; clear H6.
    apply Matches_Plus_Digit in H5 as (ds & -> & Hne & Hds).
    exists (c :: "B" :: ds). split_and!; [| done | by apply at_eos_spec].
    exists c, ds. split_and!; [done | | done | done].
    match goal with Hin : In c _ |- _ => destruct Hin as [<- | [<- | []]]; auto end.
  - intros (id & (c & ds & -> & Hc & Hne & Hds) & -> & He).
    simpl. eapply M_Cat; [constructor; destruct Hc as [-> | ->]; simpl; auto |].
    eapply M_Cat; [constructor |].
    eapply M_Cat; [apply Matches_Plus_Digit; eauto |].
    constructor. by apply at_eos_spec.
Qed.

Lemma Matches_BILL_LINK s s' :
  Matches BILL_LINK s s' ↔
  ∃ p id, Forall (λ c, c ≠ newline) p ∧ bill_id id ∧
          s = p ++ "=" :: id ++ s' ∧ eos s'.
Proof.
  change BILL_LINK with (Cat (Star Dot) (Cat (Chr "=") BILL_ID)). split.
  - intros H.
    inversion H as [| | | |? ? ? s1 ? H1 H2| | | |]; subst; clear H.
    inversion H2 as [| | | |? ? ? s2 ? H3 H4| | | |]; subst; clear H2.
    inversion H3; subst; clear H3.
    apply (Matches_Star_one _ _ Matches_Dot) in H1 as (p & -> & Hp).
    apply Matches_BILL_ID in H4 as (id & Hid & -> & He).
    by exists p, id.
  - intros (p & id & Hp & Hid & -> & He).
    eapply M_Cat; [apply (Matches_Star_one _ _ Matches_Dot); eauto |].
    eapply M_Cat; [constructor |]. apply Matches_BILL_ID. eauto.
Qed.

(** A bill identifier ends in a digit and holds [S] or [H] only in front. *)
Lemma bill_id_snoc id : bill_id id → ∃ l d, id = l ++ [d] ∧ is_digit d = true.
Proof.
  intros (c & ds & -> & _ & Hne & Hds).
  destruct (exists_last Hne) as (ds' & d & ->).
  exists (c :: "B" :: ds'), d. split; [done |].
  apply Forall_app in Hds as [_ Hd]. by inversion Hd.
Qed.

Lemma eos_after_digit l d tl l' :
  is_digit d = true → eos tl → l ++ [d] ++ tl = l' ++ [newline] → tl = [newline].
Proof.
  intros Hd [-> | ->] Heq; [| done].
  rewrite app_nil_r in Heq. apply app_inj_tail in Heq as [_ ->]. done.
Qed.

Lemma bill_id_in_bill_id l c ds c' ds' :
  (c = "S" ∨ c = "H") → Forall (λ d, is_digit d = true) ds' →
  c' :: "B" :: ds' = l ++ c :: "B" :: ds → l = [].
Proof.
  intros Hc Hds' Heq. destruct l as [|x [|y l]]; [done | |].
  - injection Heq as _ <- _. by destruct Hc as [[=] | [=]].
  - injection Heq as _ _ ->. apply Forall_app in Hds' as [_ H].
    inversion H as [|? ? Hd _]; subst. destruct Hc as [-> | ->]; done.
Qed.

(** The bill identifier at the end of a string is unique. *)
Lemma bill_id_at_end_unique p id tl q id' tl' :
  bill_id id → eos tl → bill_id id' → eos tl' →
  p ++ id ++ tl = q ++ id' ++ tl' → p = q ∧ id = id' ∧ tl = tl'.
Proof.
  intros Hid He Hid' He' Heq.
  assert (tl = tl') as <-.
  { destruct (bill_id_snoc _ Hid) as (l & d & -> & Hd).
    destruct (bill_id_snoc _ Hid') as (l' & d' & -> & Hd').
    destruct He' as [-> | ->].
    - destruct He as [-> | ->]; [done |].
      rewrite !app_nil_r, !app_assoc in Heq.
      apply app_inj_tail in Heq as [_ <-]. done.
    - apply (eos_after_digit (p ++ l) d tl (q ++ l' ++ [d'])); [done | done |].
      rewrite <- !app_assoc in Heq. rewrite <- !app_assoc. exact Heq. }
  rewrite !app_assoc in Heq. apply app_inv_tail in Heq.
  destruct Hid as (c & ds & -> & Hc & _ & Hds).
  destruct Hid' as (c' & ds' & -> & Hc' & _ & Hds').
  apply app_eq_app in Heq as [l [[-> Hl] | [-> Hl]]].
  - apply bill_id_in_bill_id in Hl as Hnil; [| done | done]. subst l.
    simpl in Hl. rewrite app_nil_r. by rewrite Hl.
  - apply bill_id_in_bill_id in Hl as Hnil; [| done | done]. subst l.
    simpl in Hl. rewrite app_nil_r. by rewrite Hl.
Qed.

(** [re.match(r'.*=[SH]B\d+$', url)] succeeds exactly on the strings
    [p=ID] and [p=ID\n] in which [p] holds no newline. *)
Lemma re_match_BILL_LINK url :
  is_Some (re_match BILL_LINK url) ↔
  ∃ p id tl, chars_of url = p ++ "=" :: id ++ tl ∧
             Forall (λ c, c ≠ newline) p ∧ bill_id id ∧ eos tl.
Proof.
  rewrite re_match_is_Some. split.
  - intros (s' & H). apply Matches_BILL_LINK in H as (p & id & ? & ? & ? & ?).
    by exists p, id, s'.
  - intros (p & id & tl & ? & ? & ? & ?). exists tl.
    apply Matches_BILL_LINK. by exists p, id.
Qed.

(** [re.search(r'[SH]B\d+$', url).group()] is the bill identifier at the
    end of [url]. *)
Lemma re_search_BILL_ID url m :
  re_search BILL_ID url = Some m ↔
  ∃ p tl, chars_of url = p ++ chars_of m ++ tl ∧ bill_id (chars_of m) ∧ eos tl.
Proof.
  split.
  - intros (pre & s' & Heq & HM)%re_search_Some.
    apply Matches_BILL_ID in HM as (id & Hid & Hm & He).
    apply app_inv_tail in Hm as <-. by exists pre, s'.
  - intros (p & tl & Heq & Hid & He).
    destruct (re_search BILL_ID url) as [m'|] eqn:E.
    + apply re_search_Some in E as (pre & s' & Heq' & HM).
      apply Matches_BILL_ID in HM as (id & Hid' & Hm & He').
      apply app_inv_tail in Hm as <-. rewrite Heq in Heq'.
      apply bill_id_at_end_unique in Heq' as (_ & Hmm & _); try done.
      f_equal. by apply chars_of_inj.
    + rewrite re_search_None in E. destruct (E p (chars_of m ++ tl) tl Heq).
      apply Matches_BILL_ID. by exists (chars_of m).
Qed.

Lemma re_search_BILL_ID_None url :
  re_search BILL_ID url = None ↔
  ¬ ∃ p id tl, chars_of url = p ++ id ++ tl ∧ bill_id id ∧ eos tl.
Proof.
  rewrite re_search_None. split.
  - intros H (p & id & tl & Heq & Hid & He). apply (H p (id ++ tl) tl Heq).
    apply Matches_BILL_ID. by exists id.
  - intros H pre suf s' Heq (id & Hid & -> & He)%Matches_BILL_ID.
    apply H. by exists pre, id, s'.
Qed.

End ReFacts.

Example re_match_HB15 :
  re_match BILL_LINK "https://capitol.texas.gov/BillLookup/History.aspx?LegSess=85R&Bill=HB15"
  = Some "https://capitol.texas.gov/BillLookup/History.aspx?LegSess=85R&Bill=HB15"%string.
Proof. vm_compute. reflexivity. Qed.

Example re_match_HCR4 : re_match BILL_LINK "History.aspx?LegSess=85R&Bill=HCR4" = None.
Proof. vm_compute. reflexivity. Qed.

Example re_search_SB2001 : re_search BILL_ID "History.aspx?Bill=SB2001" = Some "SB2001"%string.
Proof. vm_compute. reflexivity. Qed.

(* ===================================================================== *)
(** * Facts about effects *)
(* ===================================================================== *)

Section Effects.

Context {A B : Type}.

Lemma bind_unfold (m : M A) (f : A → M B) w :
  (m ≫= f) w = match m w with
               | (Ok a, w') => f a w'
               | (Raise e, w') => (Raise e, w')
               end.
Proof. reflexivity. Qed.

Lemma bind_inv_Ok (m : M A) (f : A → M B) w b w2 :
  (m ≫= f) w = (Ok b, w2) →
  ∃ a w1, m w = (Ok a, w1) ∧ f a w1 = (Ok b, w2).
Proof.
  rewrite bind_unfold. destruct (m w) as [[a | e] w1]; [eauto | done].
Qed.

Lemma bind_inv_Raise (m : M A) (f : A → M B) w e w2 :
  (m ≫= f) w = (Raise e, w2) →
  m w = (Raise e, w2) ∨ ∃ a w1, m w = (Ok a, w1) ∧ f a w1 = (Raise e, w2).
Proof.
  rewrite bind_unfold. destruct (m w) as [[a | e'] w1] eqn:Hm; intros Hf.
  - right. by exists a, w1.
  - left. by injection Hf as -> ->.
Qed.

End Effects.

Lemma ret_unfold {A} (a : A) (w : World) : (mret a : M A) w = (Ok a, w).
Proof. reflexivity. Qed.

(** Run the binds and returns at the head of a computation. *)
Ltac run := repeat (progress (rewrite ?bind_unfold, ?ret_unfold; simpl)).

Lemma NeverRaises_inv {A} (e : exn) (g : Generator A) :
  NeverRaises e g →
  (∀ w, fst (next g w) ≠ Raise e) ∧
  (∀ w x g' w', next g w = (Ok (Some (x, g')), w') → NeverRaises e g').
Proof. by intros []. Qed.

Lemma requests_log_Get request w :
  requests (log (Get request) w) = requests w ++ [request].
Proof. unfold requests. simpl. by rewrite flat_map_app. Qed.

Lemma requests_log_Print line w : requests (log (Print line) w) = requests w.
Proof. unfold requests. simpl. by rewrite flat_map_app, app_nil_r. Qed.

Lemma requests_log_Sleep n w : requests (log (Sleep n) w) = requests w.
Proof. unfold requests. simpl. by rewrite flat_map_app, app_nil_r. Qed.

Lemma chamber_map_lookup chamber :
  chamber_map !! chamber =
    if decide (chamber = "senate"%string) then Some "senatefiled"%string
    else if decide (chamber = "house"%string) then Some "housefiled"%string
    else None.
Proof.
  unfold chamber_map. repeat case_decide; subst; simplify_map_eq; done.
Qed.

(** ** What a computation leaves alone *)

Section Keeps.

Context {X : Type} (proj : World → X).

Lemma keeps_ret {A} (a : A) : keeps proj (mret a : M A).
Proof. by intros w. Qed.

Lemma keeps_raise {A} (e : exn) : keeps proj (raise e : M A).
Proof. by intros w. Qed.

Lemma keeps_bind {A B} (m : M A) (f : A → M B) :
  keeps proj m → (∀ a, keeps proj (f a)) → keeps proj (m ≫= f).
Proof.
  intros Hm Hf w. rewrite bind_unfold. specialize (Hm w).
  destruct (m w) as [[a | e] w1]; simpl in *; [| done].
  by rewrite Hf.
Qed.

Lemma keeps_try_except {A} (body : M A) (handler : exn → option (M A)) :
  keeps proj body → (∀ e h, handler e = Some h → keeps proj h) →
  keeps proj (try_except body handler).
Proof.
  intros Hbody Hhandler w. unfold try_except. specialize (Hbody w).
  destruct (body w) as [[a | e] w1]; simpl in *; [done |].
  destruct (handler e) as [h|] eqn:He; [| done].
  by rewrite (Hhandler e h He).
Qed.

Lemma keeps_for_list {A} (l : list A) (body : A → M unit) :
  (∀ x, keeps proj (body x)) → keeps proj (for_list l body).
Proof.
  intros Hbody. induction l as [|x l IH]; simpl.
  - apply keeps_ret.
  - apply keeps_bind; [apply Hbody | by intros _].
Qed.

End Keeps.

(** The effects that touch neither the files nor the file objects. *)
Lemma keeps_print {X} (proj : World → X) line :
  (∀ e w, proj (log e w) = proj w) → keeps proj (print line).
Proof. intros Hlog w. apply Hlog. Qed.

Lemma keeps_sleep {X} (proj : World → X) n :
  (∀ e w, proj (log e w) = proj w) → keeps proj (sleep n).
Proof. intros Hlog w. apply Hlog. Qed.

Lemma open_files_log e w : open_files (log e w) = open_files w.
Proof. reflexivity. Qed.

Lemma keeps_open_files_requests_get url verify :
  keeps open_files (requests_get url verify).
Proof. intros w. unfold requests_get. by destruct (server w _ _). Qed.

Lemma keeps_files_requests_get url verify :
  keeps files (requests_get url verify).
Proof. intros w. unfold requests_get. by destruct (server w _ _). Qed.

(** ** Files and file objects *)

Lemma content_Some w file text : files w !! file = Some text → content w file = text.
Proof. unfold content. by intros ->. Qed.

Lemma csv_text_app rows1 rows2 :
  csv_text (rows1 ++ rows2) = csv_text rows1 ++ csv_text rows2.
Proof. apply flat_map_app. Qed.

Lemma csv_text_cons row rows : csv_text (row :: rows) = format_row row ++ csv_text rows.
Proof. reflexivity. Qed.

Lemma csv_text_flat_map {A} (out : A → list csv_row) (l : list A) :
  csv_text (flat_map out l) = flat_map (λ x, csv_text (out x)) l.
Proof.
  induction l as [|x l IH]; simpl; [done |]. by rewrite csv_text_app, IH.
Qed.

Lemma add_text_nil f : add_text [] f = f.
Proof. destruct f. unfold add_text. simpl. by rewrite app_nil_r. Qed.

Lemma add_text_app text1 text2 f :
  add_text text2 (add_text text1 f) = add_text (text1 ++ text2) f.
Proof. unfold add_text. simpl. by rewrite app_assoc. Qed.

Lemma handed_refl my_file w w' :
  open_files w' = open_files w → files w' = files w → handed my_file [] w w'.
Proof.
  intros Hopen Hfiles. split; [| done]. rewrite Hopen.
  symmetry. apply alter_id. intros f _. apply add_text_nil.
Qed.

Lemma handed_trans my_file text1 text2 w w1 w2 :
  handed my_file text1 w w1 → handed my_file text2 w1 w2 →
  handed my_file (text1 ++ text2) w w2.
Proof.
  intros [Ho1 Hf1] [Ho2 Hf2]. split; [| congruence].
  rewrite Ho2, Ho1, alter_alter_eq. apply alter_ext.
  intros f _. apply add_text_app.
Qed.

Lemma handed_open my_file text w w' :
  handed my_file text w w' →
  is_Some (open_files w !! my_file) → is_Some (open_files w' !! my_file).
Proof.
  intros [Ho _] [f Hf]. rewrite Ho, lookup_alter_eq, Hf. by eexists.
Qed.

Lemma handed_writerow my_file row w :
  is_Some (open_files w !! my_file) →
  ∃ w', writerow my_file row w = (Ok tt, w') ∧
        handed my_file (format_row row) w w'.
Proof.
  intros [f Hf]. unfold writerow. rewrite Hf. eexists. split; [done |].
  split; [| done]. simpl. apply map_eq. intros i.
  destruct (decide (i = my_file)) as [-> | Hi].
  - by rewrite lookup_insert_eq, lookup_alter_eq, Hf.
  - by rewrite lookup_insert_ne, lookup_alter_ne.
Qed.

(** A loop that writes one row for every element of a list. *)
Lemma for_list_writerow {A} (my_file : nat) (f : A → csv_row) (l : list A) : ∀ w,
  is_Some (open_files w !! my_file) →
  ∃ w', for_list l (λ x, writerow my_file (f x)) w = (Ok tt, w') ∧
        handed my_file (csv_text (map f l)) w w'.
Proof.
  induction l as [|x l IH]; intros w Hopen; simpl.
  - exists w. split; [done | by apply handed_refl].
  - rewrite bind_unfold.
    destruct (handed_writerow my_file (f x) w Hopen) as (w1 & -> & H1).
    destruct (IH w1 (handed_open _ _ _ _ H1 Hopen)) as (w' & -> & Happ).
    exists w'. split; [done |]. rewrite csv_text_cons.
    by apply (handed_trans my_file _ _ w w1 w').
Qed.

(** A loop whose body only writes rows to a file object. *)
Lemma for_list_hands {A} (my_file : nat) (body : A → M unit)
    (out : A → list csv_row) (l : list A) :
  (∀ x w, is_Some (open_files w !! my_file) →
          ∃ w', body x w = (Ok tt, w') ∧ handed my_file (csv_text (out x)) w w') →
  ∀ w, is_Some (open_files w !! my_file) →
  ∃ w', for_list l body w = (Ok tt, w') ∧
        handed my_file (csv_text (flat_map out l)) w w'.
Proof.
  intros Hbody. induction l as [|x l IH]; intros w Hopen; simpl.
  - exists w. split; [done | by apply handed_refl].
  - rewrite bind_unfold. destruct (Hbody x w Hopen) as (w1 & -> & H1).
    destruct (IH w1 (handed_open _ _ _ _ H1 Hopen)) as (w' & -> & Happ).
    exists w'. split; [done |]. rewrite csv_text_app.
    by apply (handed_trans my_file _ _ w w1 w').
Qed.

Lemma for_each_unfold {A} (g : Generator A) (body : A → M unit) w :
  for_each g body w =
    match next g w with
    | (Ok (Some (x, g')), w1) =>
        match body x w1 with
        | (Ok _, w2) => for_each g' body w2
        | (Raise e, w2) => (Raise e, w2)
        end
    | (Ok None, w1) => (Ok tt, w1)
    | (Raise e, w1) => (Raise e, w1)
    end.
Proof. by destruct g. Qed.

(** Header rows and data rows. *)
Lemma is_header_full_rows row : Forall (λ r, is_header r = false) (full_rows row).
Proof.
  unfold full_rows. apply Forall_forall. intros r Hr%list_elem_of_In.
  apply in_flat_map in Hr as ([k v] & _ & [Hr | Hr]%in_app_iff);
    apply in_map_iff in Hr as (record & <- & _); unfold is_header;
    apply bool_decide_eq_false; by intros [[=] | [=]].
Qed.

Lemma is_header_summary_rows row :
  Forall (λ r, is_header r = false) (summary_rows row).
Proof.
  unfold summary_rows. apply Forall_forall. intros r Hr%list_elem_of_In.
  apply in_map_iff in Hr as ([k v] & <- & _). unfold is_header.
  apply bool_decide_eq_false. by intros [[=] | [=]].
Qed.

Lemma is_header_rows_of full rows :
  Forall (λ r, is_header r = false) (flat_map (rows_of full) rows).
Proof.
  apply Forall_forall. intros r Hr%list_elem_of_In.
  apply in_flat_map in Hr as (row & _ & Hr).
  assert (Forall (λ r, is_header r = false) (rows_of full row)) as Hall.
  { destruct full; [apply is_header_full_rows | apply is_header_summary_rows]. }
  rewrite Forall_forall in Hall. by apply Hall, list_elem_of_In.
Qed.

Lemma data_rows_app l1 l2 : data_rows (l1 ++ l2) = data_rows l1 + data_rows l2.
Proof. unfold data_rows. by rewrite List.filter_app, length_app. Qed.

Lemma header_rows_app l1 l2 : header_rows (l1 ++ l2) = header_rows l1 + header_rows l2.
Proof. unfold header_rows. by rewrite List.filter_app, length_app. Qed.

Lemma data_rows_all l :
  Forall (λ r, is_header r = false) l → data_rows l = length l ∧ header_rows l = 0.
Proof.
  unfold data_rows, header_rows. induction 1 as [|r l Hr _ [IH1 IH2]]; [done |].
  simpl. rewrite Hr. simpl. by rewrite IH1, IH2.
Qed.

Lemma is_header_headers_of full : is_header (headers_of full) = true.
Proof. by destruct full. Qed.

(* ===================================================================== *)
(** * The properties of the specification *)
(* ===================================================================== *)

Section Claims.

Context {Element : Type} `{Lxml Element}.

(** ** The orchestrator *)

(** C1 (the code departs from it).  The specification has [main] parse
    the command line and run discovery, scraping and writing.  [main] never
    calls [parse_args]: it reads [chamber] from the parser itself, which has
    no such attribute.  Whatever the command line and the world, [main]
    prints its first line and raises [AttributeError]; nothing is fetched
    and nothing is written. *)
Theorem main_raises_AttributeError (argv : list string) (w : World) :
  main argv w = (Raise AttributeError, log (Print "Starting...") w).
Proof. reflexivity. Qed.

(** ** The page fetcher *)

Lemma lxmlize_finish_events url flag r w :
  events (snd (lxmlize_finish url flag r w)) = events w.
Proof.
  unfold lxmlize_finish, raise_for_status.
  destruct flag, (is_error_status (status_code r)),
    (fromstring (text r)) as [page|]; try done;
    simpl; run; by destruct (make_links_absolute page url).
Qed.

Lemma lxmlize_finish_files url flag r w :
  files (snd (lxmlize_finish url flag r w)) = files w.
Proof.
  unfold lxmlize_finish, raise_for_status.
  destruct flag, (is_error_status (status_code r)),
    (fromstring (text r)) as [page|]; try done;
    simpl; run; by destruct (make_links_absolute page url).
Qed.

Lemma lxmlize_finish_result url flag r w :
  fst (lxmlize_finish url flag r w) =
    if flag && is_error_status (status_code r) then Raise HTTPError
    else match fromstring (text r) with
         | Some page =>
             match make_links_absolute page url with
             | Some page => Ok page
             | None => Raise ValueError
             end
         | None => Raise ParserError
         end.
Proof.
  unfold lxmlize_finish, raise_for_status.
  destruct flag, (is_error_status (status_code r)),
    (fromstring (text r)) as [page|]; try done;
    simpl; run; by destruct (make_links_absolute page url).
Qed.

(** The four ways through the [try] statement of [lxmlize]. *)
Lemma lxmlize_first_try url flag w r :
  server w (requests w) (get_request url) = Responds r →
  ∃ w1, events w1 = events w ++ [Get (get_request url)] ∧ files w1 = files w ∧
        lxmlize url flag w = lxmlize_finish url flag r w1.
Proof.
  intros Hr. eexists. split_and!; [| | unfold lxmlize, try_except, requests_get;
    rewrite bind_unfold; fold (get_request url); rewrite Hr; reflexivity]; done.
Qed.

Lemma lxmlize_other_failure url flag w :
  server w (requests w) (get_request url) = Fails Other_failure →
  lxmlize url flag w = (Raise RequestException, log (Get (get_request url)) w).
Proof.
  intros Hr. unfold lxmlize, try_except, requests_get.
  rewrite bind_unfold. fold (get_request url). by rewrite Hr.
Qed.

Lemma lxmlize_ssl_failure url flag w :
  server w (requests w) (get_request url) = Fails SSL_failure →
  lxmlize url flag w =
    (requests_get url false ≫= lxmlize_finish url flag) (after_ssl_error url w).
Proof.
  intros Hr. unfold lxmlize, try_except.
  rewrite !bind_unfold. unfold requests_get at 1.
  fold (get_request url). rewrite Hr. reflexivity.
Qed.

Lemma requests_after_connection_error url w :
  requests (after_connection_error url w) = requests w ++ [get_request url].
Proof.
  unfold after_connection_error.
  by rewrite requests_log_Sleep, requests_log_Print, requests_log_Get.
Qed.

Lemma lxmlize_connection_failure url flag w :
  server w (requests w) (get_request url) = Fails Connection_failure →
  lxmlize url flag w =
    (requests_get url true ≫= lxmlize_finish url flag)
      (after_connection_error url w).
Proof.
  intros Hr. unfold lxmlize, try_except.
  rewrite !bind_unfold. unfold requests_get at 1.
  fold (get_request url). rewrite Hr. reflexivity.
Qed.

(** C6.  When the first request fails with a connection error, [lxmlize]
    prints its notice, sleeps 10 seconds and issues the same request once
    more, and nothing else: these are the only events it adds.  When that
    second request fails too, whatever the failure, [lxmlize] raises its
    exception to the caller and issues no third request. *)
Theorem lxmlize_retries_once (url : string) (raise_exceptions : bool) (w : World) :
  server w (requests w) (get_request url) = Fails Connection_failure →
  events (snd (lxmlize url raise_exceptions w)) =
    events w ++ [Get (get_request url);
                 Print "Request limit exceeded. Waiting 10 seconds.";
                 Sleep 10;
                 Get (get_request url)] ∧
  ∀ f, server w (requests w ++ [get_request url]) (get_request url) = Fails f →
       lxmlize url raise_exceptions w =
         (Raise (exn_of f),
          log (Get (get_request url)) (after_connection_error url w)).
Proof.
  intros Hfail. rewrite (lxmlize_connection_failure _ _ _ Hfail).
  rewrite bind_unfold. unfold requests_get.
  rewrite requests_after_connection_error. fold (get_request url).
  change (server (after_connection_error url w)) with (server w).
  destruct (server w (requests w ++ [get_request url]) (get_request url))
    as [r | f] eqn:Hretry.
  - split; [| done]. rewrite lxmlize_finish_events. simpl.
    by rewrite <- !app_assoc.
  - split; [simpl; by rewrite <- !app_assoc | by intros f' [= <-]].
Qed.

(** [lxmlize] without the flag never raises [HTTPError]. *)
Lemma requests_get_not_HTTPError url verify w :
  fst (requests_get url verify w) ≠ Raise HTTPError.
Proof.
  unfold requests_get.
  destruct (server w (requests w) _) as [r | []]; done.
Qed.

Lemma retry_not_HTTPError url verify w :
  fst ((requests_get url verify ≫= lxmlize_finish url false) w) ≠ Raise HTTPError.
Proof.
  rewrite bind_unfold.
  destruct (requests_get url verify w) as [[r | e] w1] eqn:Hget.
  - rewrite lxmlize_finish_result. simpl.
    destruct (fromstring (text r)) as [page|]; [| done].
    by destruct (make_links_absolute page _).
  - simpl. intros [= ->].
    apply (requests_get_not_HTTPError url verify w). by rewrite Hget.
Qed.

Lemma lxmlize_default_not_HTTPError url w :
  fst (lxmlize url false w) ≠ Raise HTTPError.
Proof.
  destruct (server w (requests w) (get_request url)) as [r | []] eqn:Hr.
  - destruct (lxmlize_first_try url false w r Hr) as (w1 & _ & _ & ->).
    rewrite lxmlize_finish_result. simpl.
    destruct (fromstring (text r)) as [page|]; [| done].
    by destruct (make_links_absolute page _).
  - rewrite (lxmlize_ssl_failure _ _ _ Hr). apply retry_not_HTTPError.
  - rewrite (lxmlize_connection_failure _ _ _ Hr). apply retry_not_HTTPError.
  - by rewrite (lxmlize_other_failure _ _ _ Hr).
Qed.

(** [lxmlize] leaves the files alone and raises only what a fetch raises. *)
Lemma requests_get_frame url verify w :
  files (snd (requests_get url verify w)) = files w ∧
  ∀ e w', requests_get url verify w = (Raise e, w') → is_fetch_exn e = true.
Proof.
  unfold requests_get. destruct (server w (requests w) _) as [r | f]; simpl.
  - done.
  - split; [done |]. intros e w' [= <- _]. by destruct f.
Qed.

Lemma lxmlize_finish_raises url flag r w e w' :
  lxmlize_finish url flag r w = (Raise e, w') → is_fetch_exn e = true.
Proof.
  intros Heq. assert (fst (lxmlize_finish url flag r w) = Raise e) as Hfst
    by by rewrite Heq.
  rewrite lxmlize_finish_result in Hfst.
  destruct (flag && _); [by injection Hfst as <- |].
  destruct (fromstring (text r)) as [page|]; [| by injection Hfst as <-].
  destruct (make_links_absolute page url); [done | by injection Hfst as <-].
Qed.

Lemma retry_frame url verify flag w :
  files (snd ((requests_get url verify ≫= lxmlize_finish url flag) w)) = files w ∧
  ∀ e w', (requests_get url verify ≫= lxmlize_finish url flag) w = (Raise e, w') →
          is_fetch_exn e = true.
Proof.
  rewrite bind_unfold. destruct (requests_get_frame url verify w) as [Hfiles Hexn].
  destruct (requests_get url verify w) as [[r | e] w1] eqn:Hget; simpl in *.
  - rewrite lxmlize_finish_files. split; [done |]. apply lxmlize_finish_raises.
  - split; [done |]. intros e' w' [= <- _]. eauto.
Qed.

Lemma lxmlize_frame url flag w :
  files (snd (lxmlize url flag w)) = files w ∧
  ∀ e w', lxmlize url flag w = (Raise e, w') → is_fetch_exn e = true.
Proof.
  destruct (server w (requests w) (get_request url)) as [r | []] eqn:Hr.
  - destruct (lxmlize_first_try url flag w r Hr) as (w1 & _ & Hfiles & ->).
    rewrite lxmlize_finish_files. split; [done |]. apply lxmlize_finish_raises.
  - rewrite (lxmlize_ssl_failure _ _ _ Hr).
    apply (retry_frame url false flag (after_ssl_error url w)).
  - rewrite (lxmlize_connection_failure _ _ _ Hr).
    apply (retry_frame url true flag (after_connection_error url w)).
  - rewrite (lxmlize_other_failure _ _ _ Hr). split; [done |].
    by intros e w' [= <- _].
Qed.

(** ** The bill discoverer *)

(** The loop of [get_chamber_bills] is a filter. *)
Lemma links_loop_filter (hrefs links : list string) :
  fold_left
    (λ links url, match re_match BILL_LINK url with
                  | Some _ => links ++ [url]
                  | None => links
                  end) hrefs links
  = links ++ List.filter is_bill_link hrefs.
Proof.
  revert links. induction hrefs as [|url hrefs IH]; intros links; simpl.
  - by rewrite app_nil_r.
  - rewrite IH. unfold is_bill_link.
    destruct (re_match BILL_LINK url); [by rewrite <- app_assoc | done].
Qed.

(** What [get_chamber_bills] does for a chamber of [chamber_map]. *)
Lemma get_chamber_bills_known chamber session filed w :
  chamber_map !! chamber = Some filed →
  get_chamber_bills chamber session w =
    (page ← lxmlize (listing_url session filed) false;
     let links := List.filter is_bill_link (xpath_strings page "//@href") in
     print ("Found " +:+ pretty (length links) +:+ " " +:+ chamber +:+ " bills") ;;
     mret links)
      (log (Print ("Getting " +:+ chamber +:+ " bills")) w).
Proof.
  intros Hmap. unfold get_chamber_bills, subscript.
  rewrite bind_unfold. simpl. rewrite Hmap.
  rewrite (bind_unfold (mret filed)). simpl.
  fold (listing_url session filed).
  rewrite !bind_unfold.
  destruct (lxmlize _ false _) as [[page | e] w1]; [| done].
  by rewrite links_loop_filter.
Qed.

Lemma get_chamber_bills_unknown chamber session w :
  chamber_map !! chamber = None →
  get_chamber_bills chamber session w =
    (Raise KeyError, log (Print ("Getting " +:+ chamber +:+ " bills")) w).
Proof.
  intros Hmap. unfold get_chamber_bills, subscript.
  rewrite bind_unfold. simpl. by rewrite Hmap.
Qed.

Lemma get_chamber_bills_Ok chamber session w links w' :
  get_chamber_bills chamber session w = (Ok links, w') →
  ∃ filed page w2,
    chamber_map !! chamber = Some filed ∧
    lxmlize (listing_url session filed) false
      (log (Print ("Getting " +:+ chamber +:+ " bills")) w) = (Ok page, w2) ∧
    links = List.filter is_bill_link (xpath_strings page "//@href").
Proof.
  destruct (chamber_map !! chamber) as [filed|] eqn:Hmap.
  - rewrite (get_chamber_bills_known _ _ _ _ Hmap).
    intros (page & w2 & Hpage & Hrest)%bind_inv_Ok.
    exists filed, page, w2. split_and!; [done | done |].
    simpl in Hrest. by injection Hrest as <- _.
  - by rewrite (get_chamber_bills_unknown _ _ _ Hmap).
Qed.

(** The test of the loop, without the regular expression. *)
Lemma is_bill_link_spec url :
  is_bill_link url = true ↔ ends_in_equals_bill_id url.
Proof.
  unfold is_bill_link, ends_in_equals_bill_id.
  rewrite <- re_match_BILL_LINK.
  destruct (re_match BILL_LINK url) as [m|].
  - split; [intros _; by eexists | done].
  - split; [done | by intros [? ?]].
Qed.

(** C3 (amended).  [get_chamber_bills] returns the hyperlink targets of the
    listing page that end in [=], [S] or [H], [B] and one or more digits,
    as [re.match(r'.*=[SH]B\d+$', url)] decides it, and no other: in the
    order of the page, a target as often as the page holds it.  Ending in
    a bill identifier is not enough, the [=] before it is required. *)
Theorem get_chamber_bills_links (chamber session : string) (w : World)
    (links : list string) (w' : World) :
  get_chamber_bills chamber session w = (Ok links, w') →
  ∃ filed page w2,
    chamber_map !! chamber = Some filed ∧
    lxmlize (listing_url session filed) false
      (log (Print ("Getting " +:+ chamber +:+ " bills")) w) = (Ok page, w2) ∧
    links = List.filter is_bill_link (xpath_strings page "//@href") ∧
    ∀ url, is_bill_link url = true ↔ ends_in_equals_bill_id url.
Proof.
  intros (filed & page & w2 & Hmap & Hpage & ->)%get_chamber_bills_Ok.
  exists filed, page, w2. split_and!; [done | done | done |].
  apply is_bill_link_spec.
Qed.

(** C9.  A link that [get_chamber_bills] returns holds [=] right before the
    bill identifier at its end; a URL that ends in a bill identifier with no
    [=] right before it is not among the links returned. *)
Theorem get_chamber_bills_requires_equals (chamber session : string) (w : World)
    (links : list string) (w' : World) (url : string) :
  get_chamber_bills chamber session w = (Ok links, w') →
  (In url links →
     ∃ p id tl, chars_of url = p ++ "=" :: id ++ tl ∧ bill_id id ∧ eos tl) ∧
  (∀ p id, chars_of url = p ++ id → bill_id id →
           (∀ p', p ≠ p' ++ ["="]) → ¬ In url links).
Proof.
  intros (filed & page & w2 & _ & _ & ->)%get_chamber_bills_Ok.
  split.
  - intros [_ Hlink]%filter_In.
    apply is_bill_link_spec in Hlink as (p & id & tl & ? & _ & ? & ?).
    by exists p, id, tl.
  - intros p id Hurl Hid Hno [_ Hlink]%filter_In.
    apply is_bill_link_spec in Hlink as (p2 & id2 & tl & Hurl2 & _ & Hid2 & He).
    rewrite Hurl in Hurl2.
    assert (p ++ id ++ [] = (p2 ++ ["="]) ++ id2 ++ tl) as Heq.
    { rewrite app_nil_r, Hurl2. by rewrite <- app_assoc. }
    apply bill_id_at_end_unique in Heq as (Hp & _ & _);
      [| done | by left | done | done].
    by apply (Hno p2).
Qed.

(** C8.  For a chamber other than [house] and [senate] the lookup in
    [chamber_map] raises [KeyError]: [get_chamber_bills] returns no list, and
    the only thing it has done is print its first line; it has issued no
    request. *)
Theorem get_chamber_bills_unknown_chamber (chamber session : string) (w : World) :
  chamber ≠ "house"%string → chamber ≠ "senate"%string →
  get_chamber_bills chamber session w =
    (Raise KeyError, log (Print ("Getting " +:+ chamber +:+ " bills")) w) ∧
  requests (snd (get_chamber_bills chamber session w)) = requests w.
Proof.
  intros Hhouse Hsenate.
  assert (chamber_map !! chamber = None) as Hmap.
  { rewrite chamber_map_lookup. by repeat case_decide. }
  rewrite (get_chamber_bills_unknown _ _ _ Hmap). split; [done |].
  apply requests_log_Print.
Qed.

Lemma get_chamber_bills_not_HTTPError chamber session w :
  fst (get_chamber_bills chamber session w) ≠ Raise HTTPError.
Proof.
  destruct (chamber_map !! chamber) as [filed|] eqn:Hmap.
  - rewrite (get_chamber_bills_known _ _ _ _ Hmap), bind_unfold.
    destruct (lxmlize _ false _) as [[page | e] w1] eqn:Hpage; [done |].
    simpl. intros [= ->].
    eapply lxmlize_default_not_HTTPError. by erewrite Hpage.
  - by rewrite (get_chamber_bills_unknown _ _ _ Hmap).
Qed.

(** ** The vote scraper *)

(** The loops over vote rows touch nothing, raise [IndexError] only, and
    append one record for every row. *)
Lemma scrape_records_spec records : ∀ data w,
  ∃ r, scrape_records records data w = (r, w) ∧
       match r with
       | Ok out => ∃ new, out = data ++ new ∧ length new = length records
       | Raise e => e = IndexError
       end.
Proof.
  induction records as [|record records IH]; intros data w; simpl.
  - exists (Ok data). split; [done |]. exists []. by rewrite app_nil_r.
  - unfold item0.
    destruct (xpath_strings record "./td[2]/a/@href") as [|link ?];
      [by exists (Raise IndexError) |].
    destruct (xpath_strings record "./td[2]/a/text()") as [|type ?];
      [by exists (Raise IndexError) |].
    destruct (xpath_strings record "./td[4]/text()") as [|day ?];
      [by exists (Raise IndexError) |].
    run.
    destruct (IH (data ++ [{| date := strip day; source := link; type := type |}]) w)
      as (r & -> & Hr).
    exists r. split; [done |]. destruct r as [out | e]; [| done].
    destruct Hr as (new & -> & Hlen).
    exists ({| date := strip day; source := link; type := type |} :: new).
    split; [by rewrite <- app_assoc | simpl; by rewrite Hlen].
Qed.

Lemma scrape_bill_no_id url w :
  re_search BILL_ID url = None → scrape_bill url w = (Raise AttributeError, w).
Proof. intros Hid. unfold scrape_bill. by rewrite Hid. Qed.

(** Every way [scrape_bill] can end. *)
Lemma scrape_bill_spec url w :
  files (snd (scrape_bill url w)) = files w ∧
  match fst (scrape_bill url w) with
  | Ok row =>
      ∃ bill v, row = [(bill, v)] ∧ re_search BILL_ID url = Some bill ∧
                lower_votes v = length (lower v) ∧
                upper_votes v = length (upper v)
  | Raise e =>
      if is_fetch_exn e then is_Some (re_search BILL_ID url)
      else e = IndexError ∧ is_Some (re_search BILL_ID url) ∨
           e = AttributeError ∧ re_search BILL_ID url = None
  end.
Proof.
  destruct (re_search BILL_ID url) as [bill|] eqn:Hid;
    [| rewrite (scrape_bill_no_id _ _ Hid); simpl; auto].
  unfold scrape_bill. rewrite Hid. simpl.
  rewrite (bind_unfold (mret bill)). simpl. rewrite bind_unfold.
  destruct (lxmlize_frame url false w) as [Hfiles Hexn].
  destruct (lxmlize url false w) as [[page | e] w1] eqn:Hpage; simpl in *.
  - rewrite bind_unfold.
    destruct (scrape_records_spec (xpath_elements page
      ("//table/tr[@id=" +:+ dquote +:+ "houvote" +:+ dquote +:+ "]")) [] w1)
      as (rh & -> & Hh).
    destruct rh as [h_data | e]; [| subst e; simpl; eauto].
    destruct Hh as (newh & -> & Hlenh). rewrite bind_unfold.
    destruct (scrape_records_spec (xpath_elements page
      ("//table/tr[@id=" +:+ dquote +:+ "senvote" +:+ dquote +:+ "]")) [] w1)
      as (rs & -> & Hs).
    destruct rs as [s_data | e]; [| subst e; simpl; eauto].
    destruct Hs as (news & -> & Hlens). simpl. split; [done |].
    eexists _, _. split_and!; [done | done | by simpl | by simpl].
  - split; [done |]. by rewrite (Hexn e w1 eq_refl).
Qed.

Lemma scrape_bill_Ok url w row w' :
  scrape_bill url w = (Ok row, w') →
  files w' = files w ∧
  ∃ bill v, row = [(bill, v)] ∧ re_search BILL_ID url = Some bill ∧
            lower_votes v = length (lower v) ∧ upper_votes v = length (upper v).
Proof.
  intros Heq. destruct (scrape_bill_spec url w) as [Hfiles Hres].
  by rewrite Heq in Hfiles, Hres.
Qed.

Lemma scrape_bill_not_HTTPError url w :
  fst (scrape_bill url w) ≠ Raise HTTPError.
Proof.
  destruct (re_search BILL_ID url) as [bill|] eqn:Hid;
    [| by rewrite (scrape_bill_no_id _ _ Hid)].
  unfold scrape_bill. rewrite Hid. simpl.
  rewrite (bind_unfold (mret bill)). simpl. rewrite bind_unfold.
  destruct (lxmlize url false w) as [[page | e] w1] eqn:Hpage.
  - rewrite bind_unfold.
    destruct (scrape_records_spec (xpath_elements page
      ("//table/tr[@id=" +:+ dquote +:+ "houvote" +:+ dquote +:+ "]")) [] w1)
      as (rh & -> & Hh).
    destruct rh as [h_data | e]; [| by subst e].
    rewrite bind_unfold.
    destruct (scrape_records_spec (xpath_elements page
      ("//table/tr[@id=" +:+ dquote +:+ "senvote" +:+ dquote +:+ "]")) [] w1)
      as (rs & -> & Hs).
    destruct rs as [s_data | e]; [done | by subst e].
  - simpl. intros [= ->].
    eapply lxmlize_default_not_HTTPError. by erewrite Hpage.
Qed.

(** The generator, one [next] at a time. *)
Lemma next_scrape_loop_nil bill_votes w :
  next (scrape_loop [] bill_votes) w = (Ok None, w).
Proof. reflexivity. Qed.

Lemma next_scrape_loop_cons url bill_list bill_votes w :
  next (scrape_loop (url :: bill_list) bill_votes) w =
    match scrape_bill url w with
    | (Ok row, w') =>
        (Ok (Some (row, scrape_loop bill_list (bill_votes ++ [row]))), w')
    | (Raise e, w') => (Raise e, w')
    end.
Proof. reflexivity. Qed.

Lemma next_scrape_chamber chamber bill_list w :
  next (scrape_chamber chamber bill_list) w =
    next (scrape_loop bill_list [])
         (log (Print ("Scraping bill urls for chamber " +:+ chamber)) w).
Proof. reflexivity. Qed.

Lemma next_scrape_loop_Some bill_list bill_votes w row g w' :
  next (scrape_loop bill_list bill_votes) w = (Ok (Some (row, g)), w') →
  ∃ url rest, bill_list = url :: rest ∧ scrape_bill url w = (Ok row, w') ∧
              g = scrape_loop rest (bill_votes ++ [row]).
Proof.
  destruct bill_list as [|url rest]; [done |].
  rewrite next_scrape_loop_cons.
  destruct (scrape_bill url w) as [[row' | e] w1] eqn:Hbill; [| done].
  intros [= <- <- <-]. by exists url, rest.
Qed.

Lemma scrape_loop_Produces bill_list : ∀ bill_votes row,
  Produces (scrape_loop bill_list bill_votes) row →
  ∃ url w w', In url bill_list ∧ scrape_bill url w = (Ok row, w').
Proof.
  induction bill_list as [|url rest IH]; intros bill_votes row Hp.
  - inversion Hp; subst; discriminate.
  - inversion Hp as [g w x g' w' Hnext | g w y g' w' x Hnext Hlater]; subst.
    + apply next_scrape_loop_Some in Hnext
        as (url' & rest' & [= <- <-] & Hbill & _).
      exists url, w, w'. split; [by left | done].
    + apply next_scrape_loop_Some in Hnext
        as (url' & rest' & [= <- <-] & _ & ->).
      destruct (IH _ _ Hlater) as (u & w1 & w2 & Hin & Hbill).
      exists u, w1, w2. split; [by right | done].
Qed.

Lemma scrape_chamber_Produces chamber bill_list row :
  Produces (scrape_chamber chamber bill_list) row →
  ∃ url w w', In url bill_list ∧ scrape_bill url w = (Ok row, w').
Proof.
  intros Hp. apply (scrape_loop_Produces bill_list [] row).
  inversion Hp as [g w x g' w' Hnext | g w y g' w' x Hnext Hlater]; subst;
    rewrite next_scrape_chamber in Hnext.
  - eapply Produces_now, Hnext.
  - eapply Produces_later; [exact Hnext | exact Hlater].
Qed.

(** C2.  In every row that [scrape_chamber] yields, whatever the bill
    pages hold, [lower_votes] is the length of [lower] and [upper_votes]
    the length of [upper]. *)
Theorem scrape_chamber_counts (chamber : string) (bill_list : list string)
    (row : data_row) (bill : string) (v : BillVoteSummary) :
  Produces (scrape_chamber chamber bill_list) row →
  In (bill, v) row →
  lower_votes v = length (lower v) ∧ upper_votes v = length (upper v).
Proof.
  intros (url & w & w' & _ & Hbill)%scrape_chamber_Produces Hin.
  apply scrape_bill_Ok in Hbill as (_ & bill' & v' & -> & _ & Hlower & Hupper).
  destruct Hin as [[= <- <-] | []]. done.
Qed.

(** [re.search] finds a bill identifier exactly in the URLs that hold one. *)
Lemma re_search_holds_bill_id url :
  is_Some (re_search BILL_ID url) ↔ holds_bill_id url.
Proof.
  unfold holds_bill_id. destruct (re_search BILL_ID url) as [m|] eqn:Hm.
  - split; [intros _ | done].
    apply re_search_BILL_ID in Hm as (p & tl & ? & ? & ?).
    by exists p, (chars_of m), tl.
  - apply re_search_BILL_ID_None in Hm. split; [by intros [? ?] | done].
Qed.

Lemma scrape_bill_AttributeError url w :
  fst (scrape_bill url w) = Raise AttributeError ↔ ¬ holds_bill_id url.
Proof.
  rewrite <- re_search_holds_bill_id.
  destruct (scrape_bill_spec url w) as [_ Hres].
  destruct (fst (scrape_bill url w)) as [row | e].
  - destruct Hres as (bill & v & _ & -> & _). split; [done |].
    intros []. by eexists.
  - split.
    + intros [= ->]. simpl in Hres.
      destruct Hres as [[[=] _] | [_ ->]]. by intros [? ?].
    + intros Hnone. destruct e; simpl in Hres; try done;
        try (by destruct Hres as [[[=] ?] | [[=] _]]).
Qed.

Lemma scrape_loop_NeverRaises bill_list : ∀ bill_votes,
  Forall holds_bill_id bill_list →
  NeverRaises AttributeError (scrape_loop bill_list bill_votes).
Proof.
  induction bill_list as [|url rest IH]; intros bill_votes Hall.
  - constructor; [done | by intros w x g' w' [=]].
  - inversion Hall as [|? ? Hurl Hrest]; subst. constructor.
    + intros w Hraise. apply (scrape_bill_AttributeError url w); [| done].
      rewrite next_scrape_loop_cons in Hraise.
      destruct (scrape_bill url w) as [[row | e] w1]; [done |].
      simpl in *. by injection Hraise as ->.
    + intros w x g' w' (url' & rest' & [= <- <-] & _ & ->)%next_scrape_loop_Some.
      by apply IH.
Qed.

(** C10.  A URL in which [r'[SH]B\d+$'] finds no bill identifier makes the
    generator raise [AttributeError] when its turn comes: the call of [next]
    yields nothing, does not go on to the following URL, and leaves the
    world as it found it, so the URL is not fetched; this holds for the
    first call, which prints the notice of [scrape_chamber], and for the
    later ones.  A URL that holds an identifier never has this effect, and a
    generator over URLs that all hold one never raises [AttributeError]. *)
Theorem scrape_chamber_bill_id (chamber url : string) (rest : list string)
    (bill_votes : list data_row) (w : World) :
  (¬ holds_bill_id url →
     next (scrape_loop (url :: rest) bill_votes) w = (Raise AttributeError, w) ∧
     next (scrape_chamber chamber (url :: rest)) w =
       (Raise AttributeError,
        log (Print ("Scraping bill urls for chamber " +:+ chamber)) w)) ∧
  (holds_bill_id url →
     fst (next (scrape_loop (url :: rest) bill_votes) w) ≠ Raise AttributeError) ∧
  (Forall holds_bill_id (url :: rest) →
     NeverRaises AttributeError (scrape_chamber chamber (url :: rest))).
Proof.
  split_and!.
  - intros Hno. apply re_search_BILL_ID_None in Hno.
    rewrite next_scrape_chamber, !next_scrape_loop_cons.
    by rewrite !(scrape_bill_no_id _ _ Hno).
  - intros Hid Hraise. apply (scrape_bill_AttributeError url w); [| done].
    rewrite next_scrape_loop_cons in Hraise.
    destruct (scrape_bill url w) as [[row | e] w1]; [done |].
    simpl in *. by injection Hraise as ->.
  - intros Hall.
    destruct (NeverRaises_inv _ _ (scrape_loop_NeverRaises (url :: rest) [] Hall))
      as [Hnow Hlater].
    constructor.
    + intros w0. rewrite next_scrape_chamber. apply Hnow.
    + intros w0 x g' w'. rewrite next_scrape_chamber. apply Hlater.
Qed.

(** [lxmlize] is its [try] statement followed by the rest of its body. *)
Lemma lxmlize_split url flag :
  lxmlize url flag = lxmlize_try url ≫= lxmlize_finish url flag.
Proof. reflexivity. Qed.

(** C7.  Whichever way [lxmlize] obtained its response, at the first request
    or at the second, it raises [HTTPError] exactly when the caller passed
    [raise_exceptions=True] and the status of the response is an error status;
    without the flag it parses the body and returns the page, whatever the
    status.  The two callers, [get_chamber_bills] and the loop of
    [scrape_chamber], do not pass the flag and never raise [HTTPError]. *)
Theorem lxmlize_raises_HTTPError_only_when_asked (url : string) (w : World)
    (r : Response) (w1 : World) :
  lxmlize_try url w = (Ok r, w1) →
  (∀ raise_exceptions,
     fst (lxmlize url raise_exceptions w) = Raise HTTPError ↔
     raise_exceptions = true ∧ is_error_status (status_code r) = true) ∧
  fst (lxmlize url false w) =
    match fromstring (text r) with
    | Some page =>
        match make_links_absolute page url with
        | Some page => Ok page
        | None => Raise ValueError
        end
    | None => Raise ParserError
    end ∧
  (∀ chamber session w, fst (get_chamber_bills chamber session w) ≠ Raise HTTPError) ∧
  (∀ url w, fst (scrape_bill url w) ≠ Raise HTTPError).
Proof.
  intros Hr. split_and!.
  - intros flag. rewrite lxmlize_split, bind_unfold, Hr, lxmlize_finish_result.
    destruct flag, (is_error_status (status_code r)); simpl;
      try (destruct (fromstring (text r)) as [page|];
           [destruct (make_links_absolute page url) |]);
      split; try done; by intros [? ?].
  - by rewrite lxmlize_split, bind_unfold, Hr, lxmlize_finish_result.
  - apply get_chamber_bills_not_HTTPError.
  - apply scrape_bill_not_HTTPError.
Qed.

(** ** The writer *)

(** [lxmlize] and the scraping of a bill leave alone what their effects
    leave alone. *)
Lemma keeps_lxmlize {X} (proj : World → X) url flag :
  (∀ e w, proj (log e w) = proj w) →
  (∀ u verify, keeps proj (requests_get u verify)) →
  (∀ r, keeps proj (response_close r)) →
  keeps proj (lxmlize url flag).
Proof.
  intros Hlog Hget Hclose. unfold lxmlize. apply keeps_bind.
  - apply keeps_try_except; [apply Hget |].
    intros [] h [= <-];
      repeat (apply keeps_bind; [| intros _]);
      auto using keeps_print, keeps_sleep.
  - intros r. apply keeps_bind.
    + unfold raise_for_status.
      destruct flag; [destruct (is_error_status _) |]; by intros w.
    + intros _. apply keeps_bind.
      * destruct (fromstring (text r)); by intros w.
      * intros page. apply keeps_bind.
        -- destruct (make_links_absolute page url); by intros w.
        -- intros page'. apply keeps_bind; [apply Hclose | by intros _ w].
Qed.

Lemma keeps_scrape_records {X} (proj : World → X) records data :
  keeps proj (scrape_records records data).
Proof.
  intros w. by destruct (scrape_records_spec records data w) as (r & -> & _).
Qed.

Lemma keeps_scrape_bill {X} (proj : World → X) url :
  (∀ e w, proj (log e w) = proj w) →
  (∀ u verify, keeps proj (requests_get u verify)) →
  (∀ r, keeps proj (response_close r)) →
  keeps proj (scrape_bill url).
Proof.
  intros Hlog Hget Hclose. unfold scrape_bill. apply keeps_bind.
  - destruct (re_search BILL_ID url); by intros w.
  - intros bill. apply keeps_bind; [by apply keeps_lxmlize |].
    intros page. cbv zeta.
    apply keeps_bind; [apply keeps_scrape_records |]. intros h_data.
    apply keeps_bind; [apply keeps_scrape_records |]. by intros s_data w.
Qed.

Lemma keeps_files_scrape_bill url : keeps files (scrape_bill url).
Proof.
  apply keeps_scrape_bill; [done | apply keeps_files_requests_get | by intros r w].
Qed.

Lemma keeps_open_files_scrape_bill url : keeps open_files (scrape_bill url).
Proof.
  apply keeps_scrape_bill;
    [done | apply keeps_open_files_requests_get | by intros r w].
Qed.

Lemma write_full_rows my_file (row : data_row) w :
  is_Some (open_files w !! my_file) →
  ∃ w', for_list row (λ '(k, v),
          let bill_id := k in
          for_list (lower v) (λ record,
            writerow my_file
              [VStr bill_id; VStr "house"; VStr (date record); VStr (source record)]) ;;
          for_list (upper v) (λ record,
            writerow my_file
              [VStr bill_id; VStr "senate"; VStr (date record); VStr (source record)])) w
        = (Ok tt, w') ∧
        handed my_file (csv_text (full_rows row)) w w'.
Proof.
  unfold full_rows. revert w. apply for_list_hands. intros [k v] w Hopen.
  cbv beta zeta. rewrite bind_unfold.
  destruct (for_list_writerow my_file (house_row k) (lower v) w Hopen)
    as (w1 & Hrun1 & H1).
  destruct (for_list_writerow my_file (senate_row k) (upper v) w1
              (handed_open _ _ _ _ H1 Hopen)) as (w2 & Hrun2 & H2).
  unfold house_row in Hrun1. unfold senate_row in Hrun2. rewrite Hrun1, Hrun2.
  exists w2. split; [done |]. simpl. rewrite csv_text_app.
  by eapply handed_trans.
Qed.

Lemma write_summary_rows my_file (row : data_row) w :
  is_Some (open_files w !! my_file) →
  ∃ w', for_list row (λ '(k, v),
          writerow my_file [VStr k; VInt (lower_votes v); VInt (upper_votes v)]) w
        = (Ok tt, w') ∧
        handed my_file (csv_text (summary_rows row)) w w'.
Proof.
  intros Hopen. unfold summary_rows.
  destruct (for_list_writerow my_file
    (λ kv : string * BillVoteSummary,
       [VStr (fst kv); VInt (lower_votes (snd kv)); VInt (upper_votes (snd kv))])
    row w Hopen) as (w' & Hrun & Happ).
  exists w'. split; [| done]. rewrite <- Hrun. clear.
  revert w. induction row as [|[k v] row IH]; intros w; simpl; [done |].
  rewrite !bind_unfold. simpl.
  destruct (writerow my_file _ w) as [[[]|e] w1]; [apply IH | done].
Qed.

(** The loop of [write_data] over the generator: it writes the rows of the
    bills scraped before the generator ends or raises, and it ends when the
    generator does. *)
Lemma for_each_scrape_loop my_file (body : data_row → M unit)
    (out : data_row → list csv_row) :
  (∀ row w, is_Some (open_files w !! my_file) →
            ∃ w', body row w = (Ok tt, w') ∧
                  handed my_file (csv_text (out row)) w w') →
  ∀ bill_list bill_votes w, is_Some (open_files w !! my_file) →
  ∃ (r : result unit) w' rows,
    for_each (scrape_loop bill_list bill_votes) body w = (r, w') ∧
    handed my_file (csv_text (flat_map out rows)) w w' ∧
    match r with
    | Ok _ => Forall2 scraped bill_list rows
    | Raise e =>
        ∃ l1 url l2 w1, bill_list = l1 ++ url :: l2 ∧ Forall2 scraped l1 rows ∧
                        scrape_bill url w1 = (Raise e, w')
    end.
Proof.
  intros Hbody. induction bill_list as [|url rest IH]; intros bill_votes w Hopen.
  - exists (Ok tt), w, []. rewrite for_each_unfold, next_scrape_loop_nil.
    split_and!; [done | by apply handed_refl | done].
  - rewrite for_each_unfold, next_scrape_loop_cons.
    pose proof (keeps_files_scrape_bill url w) as Hfiles.
    pose proof (keeps_open_files_scrape_bill url w) as Hobjects.
    destruct (scrape_bill url w) as [[row | e] w1] eqn:Hbill;
      simpl in Hfiles, Hobjects.
    + assert (handed my_file [] w w1) as H1 by by apply handed_refl.
      destruct (Hbody row w1 (handed_open _ _ _ _ H1 Hopen)) as (w2 & -> & H2).
      destruct (IH (bill_votes ++ [row]) w2
                  (handed_open _ _ _ _ H2 (handed_open _ _ _ _ H1 Hopen)))
        as (r & w' & rows & -> & H3 & Hend).
      exists r, w', (row :: rows). split_and!; [done | |].
      * simpl. rewrite csv_text_app.
        apply (handed_trans my_file [] _ w w1 w'); [done |].
        by apply (handed_trans my_file _ _ w1 w2 w').
      * destruct r as [[]|e].
        -- constructor; [by exists w, w1 | done].
        -- destruct Hend as (l1 & u & l2 & w0 & -> & Hl1 & Hfail).
           exists (url :: l1), u, l2, w0. split_and!; [done | | done].
           constructor; [by exists w, w1 | done].
    + exists (Raise e), w1, []. split_and!; [done | by apply handed_refl |].
      by exists [], url, rest, w.
Qed.

Lemma for_each_scrape_chamber chamber bill_list (body : data_row → M unit) w :
  for_each (scrape_chamber chamber bill_list) body w =
    for_each (scrape_loop bill_list []) body
      (log (Print ("Scraping bill urls for chamber " +:+ chamber)) w).
Proof.
  by rewrite for_each_unfold, next_scrape_chamber, <- for_each_unfold.
Qed.

(** [open(file, 'a')], when the system refuses the path and when it does not. *)
Lemma write_data_refused (data : Generator data_row) file full w :
  refuses w file = true → write_data data file full w = (Raise OSError, w).
Proof.
  intros Hno. unfold write_data, open_append. rewrite bind_unfold. by rewrite Hno.
Qed.

Lemma fresh_file_object w : open_files w !! fresh (dom (open_files w)) = None.
Proof. apply not_elem_of_dom, is_fresh. Qed.

Lemma open_append_spec file w :
  refuses w file = false →
  open_append file w = (Ok (fresh (dom (open_files w))), opened file w) ∧
  events (opened file w) = events w ∧
  content (opened file w) file = content w file ∧
  open_files (opened file w) =
    <[fresh (dom (open_files w)) := {| name := file; written := [] |}]>
      (open_files w).
Proof.
  intros Hno. unfold opened, open_append, content. rewrite Hno. simpl.
  destruct (files w !! file) as [text|] eqn:Hfile.
  - rewrite Hfile. split_and!; done.
  - rewrite lookup_insert_eq. split_and!; done.
Qed.

(** How [write_data] ends on the generator of [scrape_chamber], when the
    file was opened: the world before the file object is closed. *)
Lemma write_data_ends chamber bill_list file full w :
  refuses w file = false →
  ∃ (r : result unit) w3 rows,
    write_data (scrape_chamber chamber bill_list) file full w =
      match r with
      | Ok _ => file_close (fresh (dom (open_files w))) w3
      | Raise e => (Raise e, w3)
      end ∧
    open_files w3 =
      <[fresh (dom (open_files w)) :=
          {| name := file;
             written := csv_text (headers_of full :: flat_map (rows_of full) rows) |}]>
        (open_files w) ∧
    files w3 = files (opened file w) ∧
    match r with
    | Ok _ => Forall2 scraped bill_list rows
    | Raise e =>
        ∃ l1 url l2 w1, bill_list = l1 ++ url :: l2 ∧ Forall2 scraped l1 rows ∧
                        scrape_bill url w1 = (Raise e, w3)
    end.
Proof.
  intros Hno.
  destruct (open_append_spec file w Hno) as (Hopen & _ & _ & Hobjects).
  set (my_file := fresh (dom (open_files w))) in *.
  set (w0 := opened file w) in *.
  assert (is_Some (open_files w0 !! my_file)) as Hopen0
    by (rewrite Hobjects, lookup_insert_eq; by eexists).
  destruct (handed_writerow my_file (headers_of full) w0 Hopen0)
    as (w1 & Hhead & H1).
  set (w2 := log (Print ("Scraping bill urls for chamber " +:+ chamber)) w1).
  assert (handed my_file [] w1 w2) as H2 by by apply handed_refl.
  assert (is_Some (open_files w2 !! my_file)) as Hopen2
    by exact (handed_open _ _ _ _ H2 (handed_open _ _ _ _ H1 Hopen0)).
  assert (∃ (r : result unit) w3 rows,
    write_data (scrape_chamber chamber bill_list) file full w =
      match r with
      | Ok _ => file_close my_file w3
      | Raise e => (Raise e, w3)
      end ∧
    handed my_file (csv_text (flat_map (rows_of full) rows)) w2 w3 ∧
    match r with
    | Ok _ => Forall2 scraped bill_list rows
    | Raise e =>
        ∃ l1 url l2 w1, bill_list = l1 ++ url :: l2 ∧ Forall2 scraped l1 rows ∧
                        scrape_bill url w1 = (Raise e, w3)
    end)
    as (r & w3 & rows & -> & H3 & Hend).
  { destruct full.
    - destruct (for_each_scrape_loop my_file _ full_rows (write_full_rows my_file)
                  bill_list [] w2 Hopen2)
        as (r & w3 & rows & Hrun & ? & ?).
      exists r, w3, rows. split_and!; try done.
      unfold write_data. rewrite bind_unfold, Hopen. cbv iota.
      rewrite !bind_unfold. simpl in Hhead. rewrite Hhead. cbv iota.
      rewrite for_each_scrape_chamber. fold w2.
      set (loop := for_each _ _ _). assert (loop = (r, w3)) as -> by exact Hrun.
      by destruct r as [[]|].
    - destruct (for_each_scrape_loop my_file _ summary_rows
                  (write_summary_rows my_file) bill_list [] w2 Hopen2)
        as (r & w3 & rows & Hrun & ? & ?).
      exists r, w3, rows. split_and!; try done.
      unfold write_data. rewrite bind_unfold, Hopen. cbv iota.
      rewrite !bind_unfold. simpl in Hhead. rewrite Hhead. cbv iota.
      rewrite for_each_scrape_chamber. fold w2.
      set (loop := for_each _ _ _). assert (loop = (r, w3)) as -> by exact Hrun.
      by destruct r as [[]|]. }
  exists r, w3, rows. split_and!; [done | | | done].
  - assert (handed my_file
              (csv_text (headers_of full :: flat_map (rows_of full) rows)) w0 w3)
      as [Hall _].
    { rewrite csv_text_cons.
      apply (handed_trans my_file _ _ w0 w1 w3); [done |].
      by apply (handed_trans my_file [] _ w1 w2 w3). }
    rewrite Hall, Hobjects, alter_insert_eq. unfold add_text. simpl.
    done.
  - destruct H1 as [_ <-]. destruct H2 as [_ <-]. by destruct H3 as [_ ->].
Qed.

(** What [close] leaves, after the loop of [write_data]. *)
Lemma file_close_spec file text w w3 :
  refuses w file = false →
  open_files w3 =
    <[fresh (dom (open_files w)) := {| name := file; written := text |}]>
      (open_files w) →
  files w3 = files (opened file w) →
  ∃ w', file_close (fresh (dom (open_files w))) w3 = (Ok tt, w') ∧
        events w' = events w3 ∧
        files w' !! file = Some (content w file ++ text) ∧
        open_files w' = open_files w.
Proof.
  intros Hno Hobjects Hfiles.
  destruct (open_append_spec file w Hno) as (_ & _ & Hcontent & _).
  unfold file_close. rewrite Hobjects, lookup_insert_eq. simpl.
  eexists. split; [done |]. simpl. split_and!.
  - done.
  - rewrite lookup_insert_eq, Hfiles. by rewrite <- Hcontent.
  - rewrite delete_insert_eq. apply delete_id, fresh_file_object.
Qed.

(** What [write_data] leaves when it completes on the generator of
    [scrape_chamber]. *)
Lemma write_data_Ok chamber bill_list file full w w' :
  write_data (scrape_chamber chamber bill_list) file full w = (Ok tt, w') →
  ∃ rows,
    Forall2 scraped bill_list rows ∧
    files w' !! file =
      Some (content w file ++
            csv_text (headers_of full :: flat_map (rows_of full) rows)) ∧
    open_files w' = open_files w.
Proof.
  intros Hrun. destruct (refuses w file) eqn:Hno;
    [by rewrite write_data_refused in Hrun |].
  destruct (write_data_ends chamber bill_list file full w Hno)
    as (r & w3 & rows & Hrun' & Hobjects & Hfiles & Hend).
  rewrite Hrun in Hrun'. destruct r as [[]|e]; [| done].
  destruct (file_close_spec file _ w w3 Hno Hobjects Hfiles)
    as (w'' & Hclose & _ & Hfile & Hopen).
  rewrite Hclose in Hrun'. injection Hrun' as ->. by exists rows.
Qed.

Lemma scraped_row url row :
  scraped url row →
  ∃ bill v, row = [(bill, v)] ∧
    full_rows row = map (house_row bill) (lower v) ++ map (senate_row bill) (upper v) ∧
    length (full_rows row) = lower_votes v + upper_votes v ∧
    summary_rows row = [[VStr bill; VInt (lower_votes v); VInt (upper_votes v)]].
Proof.
  intros (w & w' & Hbill).
  apply scrape_bill_Ok in Hbill as (_ & bill & v & -> & _ & Hlower & Hupper).
  exists bill, v. unfold full_rows. simpl. rewrite app_nil_r.
  split_and!; [done | done | | done].
  rewrite length_app, !length_map. by rewrite Hlower, Hupper.
Qed.

(** C4.  When [write_data] completes on the rows of [scrape_chamber], the
    file holds what it held, then the text of the header of the mode, then
    the text of the rows of the bills in the order of [bill_list], as
    [writerow] writes them.  In full mode the header is
    [bill_id, chamber, date, journal] and a bill gives its house records
    labelled [house] and then its senate records labelled [senate], each
    list in its order, [lower_votes + upper_votes] rows in all; in summary
    mode the header is [bill_id, lower_votes, upper_votes] and a bill gives
    one row, so there are as many data rows as bills. *)
Theorem write_data_rows (chamber : string) (bill_list : list string)
    (file : string) (full : bool) (w w' : World) :
  write_data (scrape_chamber chamber bill_list) file full w = (Ok tt, w') →
  ∃ rows : list data_row,
    Forall2 scraped bill_list rows ∧
    files w' !! file =
      Some (content w file ++
            csv_text
              (if full
               then [VStr "bill_id"; VStr "chamber"; VStr "date"; VStr "journal"]
                    :: flat_map full_rows rows
               else [VStr "bill_id"; VStr "lower_votes"; VStr "upper_votes"]
                    :: flat_map summary_rows rows)) ∧
    Forall (λ row, ∃ bill v, row = [(bill, v)] ∧
              full_rows row =
                map (house_row bill) (lower v) ++ map (senate_row bill) (upper v) ∧
              length (full_rows row) = lower_votes v + upper_votes v ∧
              summary_rows row =
                [[VStr bill; VInt (lower_votes v); VInt (upper_votes v)]]) rows ∧
    length (flat_map summary_rows rows) = length bill_list.
Proof.
  intros Hrun.
  destruct (write_data_Ok chamber bill_list file full w w' Hrun)
    as (rows & Hrows & Hfile & _).
  assert (Forall (λ row, ∃ bill v, row = [(bill, v)] ∧
              full_rows row =
                map (house_row bill) (lower v) ++ map (senate_row bill) (upper v) ∧
              length (full_rows row) = lower_votes v + upper_votes v ∧
              summary_rows row =
                [[VStr bill; VInt (lower_votes v); VInt (upper_votes v)]]) rows)
    as Heach.
  { clear Hfile Hrun. induction Hrows as [|url row l rows Hrow _ IH]; constructor;
      [by eapply scraped_row | done]. }
  exists rows. split_and!; [done | by destruct full | done |].
  rewrite (Forall2_length _ _ _ Hrows). clear Hrows Hfile Hrun.
  induction Heach as [|row rows (bill & v & _ & _ & _ & Hone) _ IH]; [done |].
  simpl. by rewrite length_app, Hone, IH.
Qed.

(** C5 (amended).  [write_data] adds to the file and overwrites nothing in
    it: when the call completes, the file holds the text it held, followed
    by the text of one header row and of the data rows of this call, which
    are the rows of the bills scraped.  The text is added right after the
    last character the file held.  So when the
    file held the text of some rows, each with its line terminator (none, for
    an empty or a new file), it then holds these rows, unchanged and in their
    order, one more header row and the data rows of the call: the number of
    data rows grows by the number the call wrote and the number of header
    rows by one. *)
Theorem write_data_appends (chamber : string) (bill_list : list string)
    (file : string) (full : bool) (w w' : World) :
  write_data (scrape_chamber chamber bill_list) file full w = (Ok tt, w') →
  ∃ scraped_rows : list data_row,
    Forall2 scraped bill_list scraped_rows ∧
    let added := flat_map (rows_of full) scraped_rows in
    files w' !! file =
      Some (content w file ++ csv_text (headers_of full :: added)) ∧
    Forall (λ row, is_header row = false) added ∧
    ∀ rows, content w file = csv_text rows →
      content w' file = csv_text (rows ++ headers_of full :: added) ∧
      data_rows (rows ++ headers_of full :: added) = data_rows rows + length added ∧
      header_rows (rows ++ headers_of full :: added) = header_rows rows + 1.
Proof.
  intros Hrun.
  destruct (write_data_Ok chamber bill_list file full w w' Hrun)
    as (rows & Hrows & Hfile & _).
  exists rows. split; [done |]. cbv zeta.
  pose proof (is_header_rows_of full rows) as Hdata.
  destruct (data_rows_all _ Hdata) as [Hd Hh].
  split_and!; [done | done |].
  intros old Hold. rewrite (content_Some _ _ _ Hfile), Hold, <- csv_text_app.
  split; [done |].
  change (headers_of full :: flat_map (rows_of full) rows)
    with ([headers_of full] ++ flat_map (rows_of full) rows).
  rewrite !data_rows_app, !header_rows_app, Hd, Hh.
  unfold data_rows, header_rows. simpl. rewrite is_header_headers_of. simpl.
  lia.
Qed.

End Claims.

(* ===================================================================== *)
(** * The script on concrete pages *)
(* ===================================================================== *)

(** The scenario of the specification: a listing with the links of [HB15]
    and [SB4], and [HB15] with one house vote. *)
Example discover_house_bills :
  fst (get_chamber_bills "house" "85R" Dom.fresh) = Ok [Dom.HB15_url; Dom.SB4_url].
Proof. vm_compute. reflexivity. Qed.

Example summary_of_HB15 :
  files (snd (write_data (scrape_chamber "house" [Dom.HB15_url]) "results.csv" false
                Dom.fresh)) !! "results.csv"%string
  = Some (csv_text [ [VStr "bill_id"; VStr "lower_votes"; VStr "upper_votes"];
                     [VStr "HB15"; VInt 1; VInt 0] ]).
Proof. vm_compute. reflexivity. Qed.

Example summary_text_of_HB15 :
  csv_text [ [VStr "bill_id"; VStr "lower_votes"; VStr "upper_votes"];
             [VStr "HB15"; VInt 1; VInt 0] ]
  = chars_of "bill_id,lower_votes,upper_votes" ++ lineterminator ++
    chars_of "HB15,1,0" ++ lineterminator.
Proof. vm_compute. reflexivity. Qed.

(** A field with a comma or a double quote is written between double
    quotes, and a row of one empty field as two double quotes. *)
Example text_of_special_fields :
  format_row [VStr "a,b"; VNone; VStr (String double_quote "c")] =
    double_quote :: chars_of "a,b" ++ double_quote :: chars_of ",," ++
    [double_quote; double_quote; double_quote; "c"; double_quote] ++ lineterminator ∧
  format_row [VNone] = [double_quote; double_quote] ++ lineterminator ∧
  format_row [] = lineterminator.
Proof. vm_compute. done. Qed.

Example full_rows_of_HB15 :
  files (snd (write_data (scrape_chamber "house" [Dom.HB15_url]) "results.csv" true
                Dom.fresh)) !! "results.csv"%string
  = Some (csv_text [ [VStr "bill_id"; VStr "chamber"; VStr "date"; VStr "journal"];
                     [VStr "HB15"; VStr "house"; VStr "05/01/2017";
                      VStr "http://journals.house.texas.gov/journal1"] ]).
Proof. vm_compute. reflexivity. Qed.

(** A connection refused once and then accepted gives the page of a run
    without failure. *)
Example retry_is_transparent :
  fst (lxmlize Dom.HB15_url false (Dom.world Dom.refusing_once ∅)) =
  fst (lxmlize Dom.HB15_url false Dom.fresh).
Proof. vm_compute. reflexivity. Qed.

Example main_on_a_command_line :
  main (Element := Dom.node) ["tlo-vote-tally.py"; "-c"; "house"; "-s"; "85R"]%string
       Dom.fresh
  = (Raise AttributeError, log (Print "Starting...") Dom.fresh).
Proof. reflexivity. Qed.

Lemma scrape_chamber_counts_witness :
  lower_votes Dom.SB4_votes = length (lower Dom.SB4_votes) ∧
  upper_votes Dom.SB4_votes = length (upper Dom.SB4_votes).
Proof.
  apply (scrape_chamber_counts "house" [Dom.SB4_url] [("SB4"%string, Dom.SB4_votes)]
           "SB4" Dom.SB4_votes).
  - eapply (Produces_now _ Dom.fresh). vm_compute. reflexivity.
  - left. reflexivity.
Defined.

Lemma get_chamber_bills_links_witness :
  ∃ filed page w2,
    chamber_map !! "house"%string = Some filed ∧
    lxmlize (listing_url "85R" filed) false
      (log (Print "Getting house bills") Dom.fresh) = (Ok page, w2) ∧
    [Dom.HB15_url; Dom.SB4_url] =
      List.filter is_bill_link (xpath_strings page "//@href") ∧
    ∀ url, is_bill_link url = true ↔ ends_in_equals_bill_id url.
Proof.
  apply (get_chamber_bills_links "house" "85R" Dom.fresh
           [Dom.HB15_url; Dom.SB4_url]
           (snd (get_chamber_bills "house" "85R" Dom.fresh))).
  vm_compute. reflexivity.
Defined.

(** C3, as the specification words it, fails: the listing of [Dom.fresh]
    holds a link that ends in the bill identifier [HB15], after a [/], and
    [get_chamber_bills] does not return it. *)
Lemma get_chamber_bills_drops_trailing_bill_id :
  let hrefs :=
    match make_links_absolute Dom.listing_page Dom.listing_url with
    | Some page => xpath_strings page "//@href"
    | None => []
    end in
  let url := "https://capitol.texas.gov/BillLookup/Text.aspx/HB15"%string in
  In url hrefs ∧ ends_in_bill_id url ∧
  ∃ links w', get_chamber_bills "house" "85R" Dom.fresh = (Ok links, w') ∧
              ¬ In url links.
Proof.
  split_and!.
  - vm_compute. tauto.
  - exists (chars_of "https://capitol.texas.gov/BillLookup/Text.aspx/"), (chars_of "HB15").
    split; [reflexivity |].
    exists "H", (chars_of "15"). split_and!; [reflexivity | by right | done |].
    repeat constructor.
  - exists [Dom.HB15_url; Dom.SB4_url], (snd (get_chamber_bills "house" "85R" Dom.fresh)).
    split; [vm_compute; reflexivity |].
    intros [Heq | [Heq | []]]; vm_compute in Heq; discriminate.
Qed.

Lemma get_chamber_bills_requires_equals_witness :
  let url := "https://capitol.texas.gov/BillLookup/Text.aspx/HB15"%string in
  (In url [Dom.HB15_url; Dom.SB4_url] →
     ∃ p id tl, chars_of url = p ++ "=" :: id ++ tl ∧ bill_id id ∧ eos tl) ∧
  (∀ p id, chars_of url = p ++ id → bill_id id →
           (∀ p', p ≠ p' ++ ["="]) → ¬ In url [Dom.HB15_url; Dom.SB4_url]).
Proof.
  apply (get_chamber_bills_requires_equals "house" "85R" Dom.fresh
           [Dom.HB15_url; Dom.SB4_url]
           (snd (get_chamber_bills "house" "85R" Dom.fresh))).
  vm_compute. reflexivity.
Defined.

Lemma write_data_rows_witness :
  ∃ rows : list data_row,
    Forall2 scraped [Dom.HB15_url; Dom.SB4_url] rows ∧
    files (snd (write_data (scrape_chamber "house" [Dom.HB15_url; Dom.SB4_url])
                  "results.csv" true Dom.rerun)) !! "results.csv"%string =
      Some (content Dom.rerun "results.csv" ++
            csv_text ([VStr "bill_id"; VStr "chamber"; VStr "date"; VStr "journal"]
                      :: flat_map full_rows rows)) ∧
    Forall (λ row, ∃ bill v, row = [(bill, v)] ∧
              full_rows row =
                map (house_row bill) (lower v) ++ map (senate_row bill) (upper v) ∧
              length (full_rows row) = lower_votes v + upper_votes v ∧
              summary_rows row =
                [[VStr bill; VInt (lower_votes v); VInt (upper_votes v)]]) rows ∧
    length (flat_map summary_rows rows) = length [Dom.HB15_url; Dom.SB4_url].
Proof.
  apply (write_data_rows "house" [Dom.HB15_url; Dom.SB4_url] "results.csv" true
           Dom.rerun).
  vm_compute. reflexivity.
Defined.

Lemma write_data_appends_witness :
  let w' := snd (write_data (scrape_chamber "house" [Dom.HB15_url; Dom.SB4_url])
                   "results.csv" false Dom.rerun) in
  ∃ scraped_rows : list data_row,
    Forall2 scraped [Dom.HB15_url; Dom.SB4_url] scraped_rows ∧
    let added := flat_map (rows_of false) scraped_rows in
    files w' !! "results.csv"%string =
      Some (content Dom.rerun "results.csv" ++ csv_text (headers_of false :: added)) ∧
    Forall (λ row, is_header row = false) added ∧
    ∀ rows, content Dom.rerun "results.csv" = csv_text rows →
      content w' "results.csv" = csv_text (rows ++ headers_of false :: added) ∧
      data_rows (rows ++ headers_of false :: added) = data_rows rows + length added ∧
      header_rows (rows ++ headers_of false :: added) = header_rows rows + 1.
Proof.
  apply (write_data_appends "house" [Dom.HB15_url; Dom.SB4_url] "results.csv" false
           Dom.rerun).
  vm_compute. reflexivity.
Defined.

(** C5, as the specification words it, fails: in [Dom.unterminated] the file
    holds a header row and the data row [HB1, 2, 1], whose line has no
    terminator.  [write_data] completes, and the file does not hold these
    two rows followed by a header row and data rows, whatever the data rows:
    the header was added to the line of [HB1].  The file holds one header
    row, as before, and the row [HB1, 2, 1bill_id, lower_votes, upper_votes]
    in place of the data row it held. *)
Lemma write_data_glues_header :
  let old := [headers_summary; [VStr "HB1"; VInt 2; VInt 1]] in
  let run := write_data (scrape_chamber "house" [Dom.HB15_url]) "results.csv" false
               Dom.unterminated in
  holds (content Dom.unterminated "results.csv") old ∧
  fst run = Ok tt ∧
  holds (content (snd run) "results.csv")
    [headers_summary;
     [VStr "HB1"; VInt 2; VStr "1bill_id"; VStr "lower_votes"; VStr "upper_votes"];
     [VStr "HB15"; VInt 1; VInt 0]] ∧
  ¬ ∃ added, holds (content (snd run) "results.csv") (old ++ headers_summary :: added).
Proof.
  split_and!.
  - right. vm_compute. reflexivity.
  - vm_compute. reflexivity.
  - left. vm_compute. reflexivity.
  - intros [added [Heq | Heq]]; vm_compute in Heq; discriminate Heq.
Qed.

Lemma lxmlize_retries_once_witness :
  let w := Dom.world Dom.refusing ∅ in
  events (snd (lxmlize (Element := Dom.node) Dom.HB15_url false w)) =
    events w ++ [Get (get_request Dom.HB15_url);
                 Print "Request limit exceeded. Waiting 10 seconds.";
                 Sleep 10;
                 Get (get_request Dom.HB15_url)] ∧
  ∀ f, server w (requests w ++ [get_request Dom.HB15_url])
         (get_request Dom.HB15_url) = Fails f →
       lxmlize (Element := Dom.node) Dom.HB15_url false w =
         (Raise (exn_of f),
          log (Get (get_request Dom.HB15_url)) (after_connection_error Dom.HB15_url w)).
Proof.
  apply (lxmlize_retries_once Dom.HB15_url false (Dom.world Dom.refusing ∅)).
  reflexivity.
Defined.

Lemma lxmlize_raises_HTTPError_only_when_asked_witness :
  let url := "https://capitol.texas.gov/BillLookup/History.aspx?LegSess=85R&Bill=HB0"%string in
  let r := {| status_code := 404; text := Dom.HB15_text |} in
  (∀ raise_exceptions,
     fst (lxmlize (Element := Dom.node) url raise_exceptions Dom.fresh) = Raise HTTPError ↔
     raise_exceptions = true ∧ is_error_status (status_code r) = true) ∧
  fst (lxmlize url false Dom.fresh) =
    match fromstring (text r) with
    | Some page =>
        match make_links_absolute page url with
        | Some page => Ok page
        | None => Raise ValueError
        end
    | None => Raise ParserError
    end ∧
  (∀ chamber session w,
     fst (get_chamber_bills (Element := Dom.node) chamber session w) ≠ Raise HTTPError) ∧
  (∀ url w, fst (scrape_bill (Element := Dom.node) url w) ≠ Raise HTTPError).
Proof.
  apply (lxmlize_raises_HTTPError_only_when_asked
           "https://capitol.texas.gov/BillLookup/History.aspx?LegSess=85R&Bill=HB0"
           Dom.fresh {| status_code := 404; text := Dom.HB15_text |}
           (snd (lxmlize_try
                   "https://capitol.texas.gov/BillLookup/History.aspx?LegSess=85R&Bill=HB0"
                   Dom.fresh))).
  reflexivity.
Defined.

Lemma get_chamber_bills_unknown_chamber_witness :
  get_chamber_bills (Element := Dom.node) "joint" "85R" Dom.fresh =
    (Raise KeyError, log (Print "Getting joint bills") Dom.fresh) ∧
  requests (snd (get_chamber_bills (Element := Dom.node) "joint" "85R" Dom.fresh)) =
    requests Dom.fresh.
Proof.
  apply (get_chamber_bills_unknown_chamber "joint" "85R" Dom.fresh); discriminate.
Defined.

Lemma scrape_chamber_bill_id_witness :
  let bad := "https://capitol.texas.gov/BillLookup/History.aspx?LegSess=85R&Bill=HCR12"%string in
  next (scrape_loop (Element := Dom.node) (bad :: [Dom.SB4_url]) []) Dom.fresh =
    (Raise AttributeError, Dom.fresh) ∧
  next (scrape_chamber (Element := Dom.node) "house" (bad :: [Dom.SB4_url])) Dom.fresh =
    (Raise AttributeError,
     log (Print "Scraping bill urls for chamber house") Dom.fresh).
Proof.
  apply (scrape_chamber_bill_id "house"
           "https://capitol.texas.gov/BillLookup/History.aspx?LegSess=85R&Bill=HCR12"
           [Dom.SB4_url] [] Dom.fresh).
  apply re_search_BILL_ID_None. vm_compute. reflexivity.
Defined.

(* ===================================================================== *)
(** * Further properties of the script *)
(* ===================================================================== *)

Section More.

Context {Element : Type} `{Lxml Element}.

(** ** More on the page fetcher *)

Lemma keeps_open_files_lxmlize url flag : keeps open_files (lxmlize url flag).
Proof.
  apply keeps_lxmlize; [done | apply keeps_open_files_requests_get | by intros r w].
Qed.

Lemma keeps_server_lxmlize url flag : keeps server (lxmlize url flag).
Proof.
  apply keeps_lxmlize; [done | | by intros r w].
  intros u verify w. unfold requests_get. by destruct (server w _ _).
Qed.

(** The second request of [lxmlize], in either handler. *)
Lemma retry_events url verify flag w :
  events (snd ((requests_get url verify ≫= lxmlize_finish url flag) w)) =
    events w ++ [Get {| req_url := url; req_verify := verify |}].
Proof.
  rewrite bind_unfold. unfold requests_get.
  destruct (server w (requests w) _) as [r | f]; [| done].
  by rewrite lxmlize_finish_events.
Qed.

Lemma lxmlize_events url flag w :
  events (snd (lxmlize url flag w)) =
    events w ++ lxmlize_course url (server w (requests w) (get_request url)).
Proof.
  destruct (server w (requests w) (get_request url)) as [r | []] eqn:Hr; simpl.
  - destruct (lxmlize_first_try url flag w r Hr) as (w1 & Hev & _ & ->).
    by rewrite lxmlize_finish_events.
  - rewrite (lxmlize_ssl_failure _ _ _ Hr), retry_events.
    unfold after_ssl_error. simpl. by rewrite <- !app_assoc.
  - rewrite (lxmlize_connection_failure _ _ _ Hr), retry_events.
    unfold after_connection_error. simpl. by rewrite <- !app_assoc.
  - by rewrite (lxmlize_other_failure _ _ _ Hr).
Qed.

Lemma requests_app (w w' : World) (added : list event) :
  events w' = events w ++ added →
  requests w' = requests w ++ flat_map request_of added.
Proof. unfold requests. intros ->. by rewrite flat_map_app. Qed.

(** The requests of [lxmlize]: one or two, all for [url]. *)
Lemma lxmlize_requests url flag w :
  ∃ more, requests (snd (lxmlize url flag w)) =
            requests w ++ get_request url :: more ∧
          length more ≤ 1 ∧ Forall (λ q, req_url q = url) more.
Proof.
  pose proof (requests_app w _ _ (lxmlize_events url flag w)) as ->.
  destruct (server w (requests w) (get_request url)) as [r | []]; simpl;
    eexists; (split; [reflexivity |]); simpl; split; try lia;
    repeat constructor.
Qed.

(** X1.  Whatever the network does, [lxmlize] adds the events of one of
    three courses, chosen by the outcome of its first request: that request
    alone; after an SSL error the notice and one unverified request, with no
    delay; after another connection error the notice, a sleep of 10 seconds
    and the same request once more.  It issues two requests at most, all for
    [url], and an unverified one after an SSL error only. *)
Theorem lxmlize_three_courses (url : string) (raise_exceptions : bool) (w : World) :
  let w' := snd (lxmlize url raise_exceptions w) in
  events w' =
    events w ++ lxmlize_course url (server w (requests w) (get_request url)) ∧
  ∃ more, requests w' = requests w ++ get_request url :: more ∧
          length more ≤ 1 ∧ Forall (λ q, req_url q = url) more ∧
          (In (unverified_request url) more →
           server w (requests w) (get_request url) = Fails SSL_failure).
Proof.
  simpl. split; [apply lxmlize_events |].
  pose proof (requests_app w _ _ (lxmlize_events url raise_exceptions w)) as ->.
  destruct (server w (requests w) (get_request url)) as [r | []]; simpl;
    eexists; (split; [reflexivity |]); simpl; split_and!; try lia;
    repeat constructor; try done; by intros [[=] | []].
Qed.

(** X2.  After an SSL error [lxmlize] asks again at once, without
    verification.  When that request fails, its exception reaches the caller,
    also when it is a connection error: the handler for connection errors
    does not apply to it, there is no delay and no third request.  When it is
    answered, the [try] statement ends with the answer. *)
Theorem lxmlize_ssl_retry (url : string) (raise_exceptions : bool) (w : World) :
  server w (requests w) (get_request url) = Fails SSL_failure →
  (∀ f, server w (requests w ++ [get_request url]) (unverified_request url) = Fails f →
        lxmlize url raise_exceptions w =
          (Raise (exn_of f),
           log (Get (unverified_request url)) (after_ssl_error url w))) ∧
  (∀ r, server w (requests w ++ [get_request url]) (unverified_request url) = Responds r →
        ∃ w1, lxmlize_try url w = (Ok r, w1) ∧
              events w1 = events w ++ [Get (get_request url); Print ssl_notice;
                                       Get (unverified_request url)]).
Proof.
  intros Hssl.
  assert (requests (after_ssl_error url w) = requests w ++ [get_request url]) as Hreq.
  { unfold after_ssl_error. by rewrite requests_log_Print, requests_log_Get. }
  split.
  - intros f Hf. rewrite (lxmlize_ssl_failure _ _ _ Hssl), bind_unfold.
    unfold requests_get. rewrite Hreq. fold (unverified_request url).
    change (server (after_ssl_error url w)) with (server w). by rewrite Hf.
  - intros r Hr. unfold lxmlize_try, try_except. unfold requests_get at 1.
    fold (get_request url). rewrite Hssl. simpl.
    rewrite !bind_unfold. simpl. unfold requests_get.
    fold (after_ssl_error url w). rewrite Hreq. fold (unverified_request url).
    change (server (after_ssl_error url w)) with (server w). rewrite Hr.
    eexists. split; [reflexivity |]. simpl. by rewrite <- !app_assoc.
Qed.

(** X3.  The page [lxmlize] returns, or the exception it raises once it
    holds a response, depends on the response alone: a response obtained at
    the second request gives what the same response gives at the first. *)
Theorem lxmlize_retry_transparent (url : string) (raise_exceptions : bool)
    (w w0 : World) (r : Response) (w1 w2 : World) :
  lxmlize_try url w = (Ok r, w1) →
  lxmlize_try url w0 = (Ok r, w2) →
  fst (lxmlize url raise_exceptions w) = fst (lxmlize url raise_exceptions w0).
Proof.
  intros Hw Hw0.
  by rewrite !lxmlize_split, !bind_unfold, Hw, Hw0, !lxmlize_finish_result.
Qed.

(** The responses the [try] statement of [lxmlize] leaves open. *)
Lemma requests_get_connections url verify w :
  connections (snd (requests_get url verify w)) =
    match fst (requests_get url verify w) with
    | Ok _ => S (connections w)
    | Raise _ => connections w
    end.
Proof. unfold requests_get. by destruct (server w _ _). Qed.

Lemma lxmlize_try_connections url w :
  connections (snd (lxmlize_try url w)) =
    match fst (lxmlize_try url w) with
    | Ok _ => S (connections w)
    | Raise _ => connections w
    end.
Proof.
  unfold lxmlize_try, try_except.
  pose proof (requests_get_connections url true w) as Hfirst.
  destruct (requests_get url true w) as [[r | e] w1]; simpl in *; [done |].
  destruct e; try done; run;
    rewrite requests_get_connections; simpl; by rewrite Hfirst.
Qed.

(** X4.  [lxmlize] closes the response it obtained exactly when it returns
    a page.  When the response was obtained and the status check, the parser
    or the rewriting of the links raises, [response.close()] is not reached
    and the response stays open; when no response was obtained there is
    nothing to close. *)
Theorem lxmlize_closes_on_success_only (url : string) (raise_exceptions : bool)
    (w : World) :
  connections (snd (lxmlize url raise_exceptions w)) =
    match fst (lxmlize_try url w), fst (lxmlize url raise_exceptions w) with
    | Ok _, Raise _ => S (connections w)
    | _, _ => connections w
    end.
Proof.
  rewrite lxmlize_split, bind_unfold.
  pose proof (lxmlize_try_connections url w) as Htry.
  destruct (lxmlize_try url w) as [[r | e] w1]; simpl in *; [| done].
  unfold lxmlize_finish, raise_for_status.
  destruct raise_exceptions; [destruct (is_error_status _) |];
    destruct (fromstring (text r)) as [page|]; simpl; try by rewrite ?Htry.
  all: run; destruct (make_links_absolute page url); simpl; by rewrite ?Htry.
Qed.

(** ** More on the bill discoverer *)

Lemma stdout_app (w w' : World) (added : list event) :
  events w' = events w ++ added →
  stdout w' = stdout w ++ flat_map line_of added.
Proof. unfold stdout. intros ->. by rewrite flat_map_app. Qed.

Lemma chamber_map_filed chamber filed :
  chamber_map !! chamber = Some filed → filed = chamber +:+ "filed".
Proof.
  rewrite chamber_map_lookup. repeat case_decide; subst; by intros [= <-].
Qed.

(** The world [get_chamber_bills] leaves for a chamber of [chamber_map]. *)
Lemma get_chamber_bills_world chamber session filed w :
  chamber_map !! chamber = Some filed →
  let w1 := log (Print ("Getting " +:+ chamber +:+ " bills")) w in
  match lxmlize (listing_url session filed) false w1 with
  | (Ok page, w2) =>
      let links := List.filter is_bill_link (xpath_strings page "//@href") in
      get_chamber_bills chamber session w =
        (Ok links,
         log (Print ("Found " +:+ pretty (length links) +:+ " " +:+ chamber +:+ " bills"))
             w2)
  | (Raise e, w2) => get_chamber_bills chamber session w = (Raise e, w2)
  end.
Proof.
  intros Hmap. simpl. rewrite (get_chamber_bills_known _ _ _ _ Hmap), bind_unfold.
  by destruct (lxmlize _ false _) as [[page | e] w2].
Qed.

(** X5.  Every request [get_chamber_bills] issues goes to the listing of the
    chamber and session, [Report.aspx?LegSess=<session>&ID=<chamber>filed]:
    two requests at most, and none for a chamber other than [house] and
    [senate]. *)
Theorem get_chamber_bills_requests (chamber session : string) (w : World) :
  ∃ reqs,
    requests (snd (get_chamber_bills chamber session w)) = requests w ++ reqs ∧
    length reqs ≤ 2 ∧
    Forall (λ q, req_url q =
                   "https://capitol.texas.gov/Reports/Report.aspx?LegSess=" +:+
                   session +:+ "&ID=" +:+ chamber +:+ "filed") reqs ∧
    (chamber ≠ "house"%string → chamber ≠ "senate"%string → reqs = []).
Proof.
  destruct (chamber_map !! chamber) as [filed|] eqn:Hmap.
  - pose proof (get_chamber_bills_world chamber session filed w Hmap) as Hrun.
    simpl in Hrun.
    destruct (lxmlize_requests (listing_url session filed) false
                (log (Print ("Getting " +:+ chamber +:+ " bills")) w))
      as (more & Hreq & Hlen & Hall).
    rewrite requests_log_Print in Hreq.
    apply chamber_map_filed in Hmap as Hfiled. subst filed.
    exists (get_request (listing_url session (chamber +:+ "filed")) :: more).
    split_and!.
    + destruct (lxmlize _ false _) as [[page | e] w2]; rewrite Hrun; simpl.
      * by rewrite requests_log_Print.
      * done.
    + simpl. lia.
    + by constructor.
    + intros Hhouse Hsenate. rewrite chamber_map_lookup in Hmap.
      by repeat case_decide.
  - rewrite (get_chamber_bills_unknown _ _ _ Hmap). simpl.
    exists []. rewrite requests_log_Print, app_nil_r.
    split_and!; [done | simpl; lia | constructor | done].
Qed.

(** X6.  When [get_chamber_bills] returns, it has printed its first line,
    then at most one notice of [lxmlize], then the line [Found N <chamber>
    bills], in which [N] is the number of links it returns. *)
Theorem get_chamber_bills_reports_count (chamber session : string) (w : World)
    (links : list string) (w' : World) :
  get_chamber_bills chamber session w = (Ok links, w') →
  ∃ notices,
    stdout w' =
      stdout w ++ ("Getting " +:+ chamber +:+ " bills") :: notices ++
      ["Found " +:+ pretty (length links) +:+ " " +:+ chamber +:+ " bills"] ∧
    (notices = [] ∨ notices = [ssl_notice] ∨ notices = [wait_notice]).
Proof.
  intros Hrun. destruct (chamber_map !! chamber) as [filed|] eqn:Hmap;
    [| by rewrite (get_chamber_bills_unknown _ _ _ Hmap) in Hrun].
  pose proof (get_chamber_bills_world chamber session filed w Hmap) as Hw.
  simpl in Hw.
  pose proof (lxmlize_events (listing_url session filed) false
                (log (Print ("Getting " +:+ chamber +:+ " bills")) w)) as Hev.
  destruct (lxmlize _ false _) as [[page | e] w2]; rewrite Hw in Hrun; [| done].
  injection Hrun as <- <-. simpl in Hev.
  set (course := lxmlize_course _ _) in Hev.
  exists (flat_map line_of course). split.
  - rewrite (stdout_app w _
               (Print ("Getting " +:+ chamber +:+ " bills") :: course ++
                [Print ("Found " +:+
                        pretty (length (List.filter is_bill_link
                                          (xpath_strings page "//@href"))) +:+
                        " " +:+ chamber +:+ " bills")])).
    + simpl. by rewrite flat_map_app.
    + simpl. rewrite Hev. by rewrite <- !app_assoc.
  - unfold course. destruct (server _ _ _) as [r | []]; simpl; auto.
Qed.

Lemma ends_in_equals_holds_bill_id url :
  ends_in_equals_bill_id url → holds_bill_id url.
Proof.
  intros (p & id & tl & Hurl & _ & Hid & He).
  exists (p ++ ["="]), id, tl. split; [| done]. by rewrite <- app_assoc.
Qed.

Lemma scrape_chamber_NeverRaises chamber bill_list :
  Forall holds_bill_id bill_list →
  NeverRaises AttributeError (scrape_chamber chamber bill_list).
Proof.
  intros Hall.
  destruct (NeverRaises_inv _ _ (scrape_loop_NeverRaises bill_list [] Hall))
    as [Hnow Hlater].
  constructor.
  - intros w. rewrite next_scrape_chamber. apply Hnow.
  - intros w x g' w'. rewrite next_scrape_chamber. apply Hlater.
Qed.

(** X7.  The links [get_chamber_bills] returns suit [scrape_chamber]: in
    each of them [r'[SH]B\d+$'] finds a bill identifier, so the generator
    over them never raises [AttributeError]; and the row it yields for a link
    is keyed by the identifier that follows the [=] at the end of the link. *)
Theorem get_chamber_bills_then_scrape (chamber session : string) (w : World)
    (links : list string) (w' : World) :
  get_chamber_bills chamber session w = (Ok links, w') →
  NeverRaises AttributeError (scrape_chamber chamber links) ∧
  ∀ url w1 row w2,
    In url links → scrape_bill url w1 = (Ok row, w2) →
    ∃ p bill v tl, row = [(bill, v)] ∧
                   chars_of url = p ++ "=" :: chars_of bill ++ tl ∧
                   bill_id (chars_of bill) ∧ eos tl.
Proof.
  intros (filed & page & w2 & _ & _ & ->)%get_chamber_bills_Ok.
  assert (∀ url, In url (List.filter is_bill_link (xpath_strings page "//@href")) →
                 ends_in_equals_bill_id url) as Hlinks.
  { intros url [_ Hlink]%filter_In. by apply is_bill_link_spec. }
  split.
  - apply scrape_chamber_NeverRaises, Forall_forall.
    intros url Hin%list_elem_of_In. by apply ends_in_equals_holds_bill_id, Hlinks.
  - intros url w1 row w3 Hin Hbill.
    destruct (Hlinks url Hin) as (p & id & tl & Hurl & _ & Hid & He).
    apply scrape_bill_Ok in Hbill as (_ & bill & v & -> & Hsearch & _).
    apply re_search_BILL_ID in Hsearch as (q & tl' & Hurl' & Hid' & He').
    assert ((p ++ ["="]) ++ id ++ tl = q ++ chars_of bill ++ tl') as Heq.
    { rewrite <- Hurl', Hurl. by rewrite <- app_assoc. }
    apply bill_id_at_end_unique in Heq as (_ & -> & ->); try done.
    by exists p, bill, v, tl'.
Qed.

(** ** More on the vote scraper *)

(** The loops over vote rows compute [record_of] of every row, in order. *)
Lemma scrape_records_mapM records : ∀ data w,
  scrape_records records data w =
    match mapM record_of records with
    | Some new => (Ok (data ++ new), w)
    | None => (Raise IndexError, w)
    end.
Proof.
  induction records as [|record records IH]; intros data w; simpl.
  - by rewrite app_nil_r.
  - unfold item0.
    destruct (xpath_strings record "./td[2]/a/@href") as [|link ?] eqn:E1.
    { assert (record_of record = None) as -> by (unfold record_of; by rewrite E1).
      done. }
    destruct (xpath_strings record "./td[2]/a/text()") as [|type ?] eqn:E2.
    { assert (record_of record = None) as ->
        by (unfold record_of; by rewrite E1, E2).
      done. }
    destruct (xpath_strings record "./td[4]/text()") as [|day ?] eqn:E3.
    { assert (record_of record = None) as ->
        by (unfold record_of; by rewrite E1, E2, E3).
      done. }
    assert (record_of record =
              Some {| date := strip day; source := link; type := type |}) as ->
      by (unfold record_of; by rewrite E1, E2, E3).
    run. rewrite IH.
    destruct (mapM record_of records) as [new|]; simpl; [| done].
    by rewrite <- app_assoc.
Qed.

(** One turn of the loop of [scrape_chamber], step by step. *)
Lemma scrape_bill_run url w :
  scrape_bill url w =
    match re_search BILL_ID url with
    | None => (Raise AttributeError, w)
    | Some bill =>
        match lxmlize url false w with
        | (Raise e, w1) => (Raise e, w1)
        | (Ok page, w1) =>
            match mapM record_of (xpath_elements page houvote_query),
                  mapM record_of (xpath_elements page senvote_query) with
            | Some h_data, Some s_data =>
                (Ok [(bill,
                      {| lower_votes := length (xpath_elements page houvote_query);
                         upper_votes := length (xpath_elements page senvote_query);
                         lower := h_data;
                         upper := s_data |})], w1)
            | _, _ => (Raise IndexError, w1)
            end
        end
    end.
Proof.
  destruct (re_search BILL_ID url) as [bill|] eqn:Hid;
    [| by apply scrape_bill_no_id].
  unfold scrape_bill. rewrite Hid. simpl.
  rewrite (bind_unfold (mret bill)). simpl. rewrite bind_unfold.
  destruct (lxmlize url false w) as [[page | e] w1]; [| done].
  fold houvote_query senvote_query.
  rewrite bind_unfold, scrape_records_mapM.
  destruct (mapM record_of (xpath_elements page houvote_query)) as [h|]; [| done].
  rewrite bind_unfold, scrape_records_mapM.
  by destruct (mapM record_of (xpath_elements page senvote_query)) as [s|].
Qed.

(** X8.  The row [scrape_chamber] builds for a bill holds one record for
    every vote row of the page, in the order of the page, house rows in
    [lower] and senate rows in [upper]: the record of a row holds its first
    journal link, its first label, and the first text of its fourth cell
    without the white space around it. *)
Theorem scrape_bill_records (url : string) (w : World) (row : data_row)
    (w' : World) :
  scrape_bill url w = (Ok row, w') →
  ∃ bill v page,
    row = [(bill, v)] ∧ lxmlize url false w = (Ok page, w') ∧
    Forall2 (λ r record, record_of r = Some record)
            (xpath_elements page houvote_query) (lower v) ∧
    Forall2 (λ r record, record_of r = Some record)
            (xpath_elements page senvote_query) (upper v).
Proof.
  rewrite scrape_bill_run.
  destruct (re_search BILL_ID url) as [bill|]; [| done].
  destruct (lxmlize url false w) as [[page | e] w1]; [| done].
  destruct (mapM record_of (xpath_elements page houvote_query)) as [h|] eqn:Hh;
    [| done].
  destruct (mapM record_of (xpath_elements page senvote_query)) as [s|] eqn:Hs;
    [| done].
  intros [= <- <-]. eexists bill, _, page. split_and!; [done | done | |]; simpl.
  - by apply mapM_Some.
  - by apply mapM_Some.
Qed.

(** X9.  When a vote row of the page lacks the journal link, the label or
    the text of the fourth cell, [scrape_chamber] builds no record in its
    place and no row for the bill: the lookup of the first item raises
    [IndexError], after the page has been fetched. *)
Theorem scrape_bill_missing_field (url : string) (w : World) (page : Element)
    (w1 : World) :
  holds_bill_id url →
  lxmlize url false w = (Ok page, w1) →
  Exists (λ r, record_of r = None)
         (xpath_elements page houvote_query ++ xpath_elements page senvote_query) →
  scrape_bill url w = (Raise IndexError, w1).
Proof.
  intros [bill Hid]%re_search_holds_bill_id Hpage Hmissing.
  rewrite scrape_bill_run, Hid, Hpage.
  apply Exists_app in Hmissing as [Hh | Hs].
  - by rewrite (mapM_None_2 _ _ Hh).
  - rewrite (mapM_None_2 _ _ Hs). by destruct (mapM record_of _).
Qed.

(** [str.strip()] leaves no white space at either end. *)
Lemma lstrip_spec s :
  ∃ sp, s = sp ++ lstrip s ∧ ∀ c, head (lstrip s) = Some c → is_space c = false.
Proof.
  induction s as [|c s (sp & Hs & Hhead)]; simpl.
  - by exists [].
  - destruct (is_space c) eqn:Hc.
    + exists (c :: sp). split; [by rewrite Hs at 1 | done].
    + exists []. split; [done |]. by intros c' [= <-].
Qed.

Lemma last_rev (l : chars) : last (rev l) = head l.
Proof. destruct l as [|c l]; [done |]. simpl. apply last_snoc. Qed.

Lemma rstrip_spec s :
  ∃ sp, s = rstrip s ++ sp ∧ ∀ c, last (rstrip s) = Some c → is_space c = false.
Proof.
  unfold rstrip. destruct (lstrip_spec (rev s)) as (sp & Hs & Hhead).
  exists (rev sp). split.
  - rewrite <- rev_app_distr, <- Hs. by rewrite rev_involutive.
  - intros c. rewrite last_rev. apply Hhead.
Qed.

Lemma strip_trimmed s : trimmed (strip s).
Proof.
  unfold trimmed, strip. rewrite chars_of_string_of.
  destruct (lstrip_spec (chars_of s)) as (_ & _ & Hhead).
  destruct (rstrip_spec (lstrip (chars_of s))) as (sp & Hs & Hlast).
  intros c [Hc | Hc]; [| by apply Hlast].
  apply Hhead. rewrite Hs. by destruct (rstrip (lstrip (chars_of s))).
Qed.

Lemma record_of_date (r : Element) record :
  record_of r = Some record → trimmed (date record).
Proof.
  unfold record_of.
  destruct (xpath_strings r "./td[2]/a/@href") as [|link ?]; [done |].
  destruct (xpath_strings r "./td[2]/a/text()") as [|type ?]; [done |].
  destruct (xpath_strings r "./td[4]/text()") as [|day ?]; [done |].
  intros [= <-]. apply strip_trimmed.
Qed.

Lemma scraped_dates url row w w' :
  scrape_bill url w = (Ok row, w') →
  ∀ bill v record, In (bill, v) row → In record (lower v ++ upper v) →
                   trimmed (date record).
Proof.
  rewrite scrape_bill_run.
  destruct (re_search BILL_ID url) as [bill|]; [| done].
  destruct (lxmlize url false w) as [[page | e] w1]; [| done].
  destruct (mapM record_of (xpath_elements page houvote_query)) as [h|] eqn:Hh;
    [| done].
  destruct (mapM record_of (xpath_elements page senvote_query)) as [s|] eqn:Hs;
    [| done].
  intros [= <- <-] bill' v record [[= <- <-] | []] Hin. simpl in Hin.
  assert (∀ rows recs, mapM record_of rows = Some recs →
                       Forall (λ record, trimmed (date record)) recs) as Hall.
  { intros rows recs Hm%mapM_Some. eapply Forall2_Forall_r; [exact Hm |].
    apply Forall_forall. intros r _ rec. apply record_of_date. }
  apply in_app_iff in Hin as [Hin | Hin]; apply list_elem_of_In in Hin.
  - by apply (proj1 (Forall_forall _ _) (Hall _ _ Hh)).
  - by apply (proj1 (Forall_forall _ _) (Hall _ _ Hs)).
Qed.

(** X10.  Every date in a row that [scrape_chamber] yields is stripped: it
    neither starts nor ends with a white space character, whatever the cell
    of the page holds. *)
Theorem scrape_chamber_dates_trimmed (chamber : string) (bill_list : list string)
    (row : data_row) (bill : string) (v : BillVoteSummary) (record : VoteRecord) :
  Produces (scrape_chamber chamber bill_list) row →
  In (bill, v) row → In record (lower v ++ upper v) →
  trimmed (date record).
Proof.
  intros (url & w & w' & _ & Hbill)%scrape_chamber_Produces Hrow Hrecord.
  by eapply scraped_dates.
Qed.

(** The world one turn of the loop leaves is the world of its page fetch. *)
Lemma scrape_bill_world url w :
  snd (scrape_bill url w) =
    match re_search BILL_ID url with
    | None => w
    | Some _ => snd (lxmlize url false w)
    end.
Proof.
  rewrite scrape_bill_run.
  destruct (re_search BILL_ID url) as [bill|]; [| done].
  destruct (lxmlize url false w) as [[page | e] w1]; [| done].
  destruct (mapM record_of (xpath_elements page houvote_query)) as [h|]; [| done].
  by destruct (mapM record_of (xpath_elements page senvote_query)) as [s|].
Qed.

Lemma next_scrape_loop_world url rest bill_votes w :
  snd (next (scrape_loop (url :: rest) bill_votes) w) = snd (scrape_bill url w).
Proof.
  rewrite next_scrape_loop_cons. by destruct (scrape_bill url w) as [[row | e] w1].
Qed.

(** X11.  The generator fetches nothing ahead: a call of [next] whose turn
    is [url] issues requests for [url] only, two at most, whatever bills
    follow; it issues one at least when [url] holds a bill identifier and
    none when it does not. *)
Theorem scrape_next_fetches_own_url (url : string) (rest : list string)
    (bill_votes : list data_row) (w : World) :
  ∃ reqs,
    requests (snd (next (scrape_loop (url :: rest) bill_votes) w)) =
      requests w ++ reqs ∧
    length reqs ≤ 2 ∧ Forall (λ q, req_url q = url) reqs ∧
    (reqs ≠ [] ↔ holds_bill_id url).
Proof.
  rewrite next_scrape_loop_world, scrape_bill_world.
  pose proof (re_search_holds_bill_id url) as Hid.
  destruct (re_search BILL_ID url) as [bill|].
  - destruct (lxmlize_requests url false w) as (more & -> & Hlen & Hall).
    exists (get_request url :: more). split_and!; [done | simpl; lia | by constructor |].
    split; [intros _; by apply Hid | done].
  - exists []. rewrite app_nil_r. split_and!; [done | simpl; lia | constructor |].
    split; [done |]. intros [? ?]%Hid. done.
Qed.

(** ** More on the writer *)

Lemma keeps_write_full {X} (proj : World → X) my_file (row : data_row) :
  (∀ r, keeps proj (writerow my_file r)) →
  keeps proj
    (for_list row (λ '(k, v),
       let bill_id := k in
       for_list (lower v) (λ record,
         writerow my_file
           [VStr bill_id; VStr "house"; VStr (date record); VStr (source record)]) ;;
       for_list (upper v) (λ record,
         writerow my_file
           [VStr bill_id; VStr "senate"; VStr (date record); VStr (source record)]))).
Proof.
  intros Hrow. apply keeps_for_list. intros [k v]. apply keeps_bind; [| intros _];
    apply keeps_for_list; intros record; apply Hrow.
Qed.

Lemma keeps_write_summary {X} (proj : World → X) my_file (row : data_row) :
  (∀ r, keeps proj (writerow my_file r)) →
  keeps proj
    (for_list row (λ '(k, v),
       writerow my_file [VStr k; VInt (lower_votes v); VInt (upper_votes v)])).
Proof. intros Hrow. apply keeps_for_list. intros [k v]. apply Hrow. Qed.

Lemma keeps_server_writerow my_file row : keeps server (writerow my_file row).
Proof. intros w. unfold writerow. by destruct (open_files w !! my_file). Qed.


(** X13.  When [write_data] completes it has closed the file object it
    opened, and it has touched no other: the open file objects are those
    that were open before the call, each with the text written to it, also
    one that is open on the same path. *)
Theorem write_data_closes (chamber : string) (bill_list : list string)
    (file : string) (full : bool) (w w' : World) :
  write_data (scrape_chamber chamber bill_list) file full w = (Ok tt, w') →
  open_files w' = open_files w.
Proof.
  intros Hrun.
  by destruct (write_data_Ok chamber bill_list file full w w' Hrun)
    as (rows & _ & _ & ?).
Qed.

(** X14.  With no bill to scrape, a call of [write_data] that completes has
    added the text of the header of the mode to the file and nothing else,
    and its only event is the notice the generator prints when the loop first
    asks it for a row. *)
Theorem write_data_no_bills (chamber file : string) (full : bool) (w w' : World) :
  write_data (scrape_chamber chamber []) file full w = (Ok tt, w') →
  events w' = events w ++ [Print (scraping_notice chamber)] ∧
  files w' !! file = Some (content w file ++ format_row (headers_of full)).
Proof.
  intros Hrun.
  destruct (refuses w file) eqn:Hno;
    [by rewrite write_data_refused in Hrun |].
  destruct (write_data_Ok chamber [] file full w w' Hrun)
    as (rows & Hrows & Hfile & _).
  apply Forall2_nil_inv_l in Hrows as ->. simpl in Hfile.
  split; [| by rewrite Hfile, csv_text_cons, app_nil_r].
  clear Hfile. revert Hrun. unfold write_data, open_append.
  rewrite bind_unfold, Hno. cbv iota zeta.
  set (my_file := fresh (dom (open_files w))).
  rewrite bind_unfold.
  assert (∀ row w0, open_files w0 !! my_file = Some {| name := file; written := [] |} →
            ∃ w1, writerow my_file row w0 = (Ok tt, w1) ∧ events w1 = events w0 ∧
                  is_Some (open_files w1 !! my_file)) as Hrow.
  { intros row w0 Hf. unfold writerow. rewrite Hf. eexists. split_and!; [done.. |].
    simpl. rewrite lookup_insert_eq. by eexists. }
  destruct full; rewrite bind_unfold;
    match goal with |- context [writerow my_file ?row ?w0] =>
      destruct (Hrow row w0) as (w1 & -> & Hev & [f Hf]);
        [simpl; by rewrite lookup_insert_eq |]
    end;
    cbv iota; rewrite for_each_scrape_chamber, for_each_unfold,
      next_scrape_loop_nil; cbv iota;
    unfold file_close; simpl; rewrite Hf; intros [= <-]; simpl;
    by rewrite Hev.
Qed.

(** X15.  [write_data] on the rows of [scrape_chamber] raises
    [AttributeError] only when a URL of the list holds no bill identifier,
    and it never raises [HTTPError]: the loop does not ask for the status
    check. *)
Theorem write_data_exceptions (chamber : string) (bill_list : list string)
    (file : string) (full : bool) (w : World) :
  let r := fst (write_data (scrape_chamber chamber bill_list) file full w) in
  (r = Raise AttributeError → Exists (λ url, ¬ holds_bill_id url) bill_list) ∧
  r ≠ Raise HTTPError.
Proof.
  simpl.
  destruct (write_data (scrape_chamber chamber bill_list) file full w)
    as [[[]|e] w'] eqn:Hrun; simpl; [done |].
  destruct (refuses w file) eqn:Hno.
  { rewrite write_data_refused in Hrun by done. by injection Hrun as <- <-. }
  destruct (write_data_ends chamber bill_list file full w Hno)
    as (r & w3 & rows & Hrun' & _ & _ & Hend).
  rewrite Hrun in Hrun'. destruct r as [[]|e'].
  { destruct (open_files w3 !! fresh (dom (open_files w))) eqn:Hf;
      unfold file_close in Hrun'; by rewrite Hf in Hrun'. }
  injection Hrun' as <- <-.
  destruct Hend as (l1 & url & l2 & w1 & -> & _ & Hfail).
  pose proof (scrape_bill_not_HTTPError url w1) as Hhttp.
  pose proof (scrape_bill_AttributeError url w1) as Hattr.
  rewrite Hfail in Hhttp, Hattr. simpl in *. split.
  - intros [= ->]. apply Exists_app. right. constructor. by apply Hattr.
  - by intros [= ->].
Qed.

(** X16.  From discovery to the file: on the links [get_chamber_bills]
    returns, [write_data] does not fail on a bill identifier, that is, it
    does not raise [AttributeError]. *)
Theorem discover_then_write_exceptions (chamber session file : string)
    (full : bool) (w : World) (links : list string) (w1 : World) :
  get_chamber_bills chamber session w = (Ok links, w1) →
  fst (write_data (scrape_chamber chamber links) file full w1) ≠
    Raise AttributeError.
Proof.
  intros (filed & page & w2 & _ & _ & ->)%get_chamber_bills_Ok Hrun.
  destruct (write_data (scrape_chamber chamber _) file full w1)
    as [r w'] eqn:Hrun'. simpl in Hrun. subst r.
  destruct (refuses w1 file) eqn:Hno.
  { rewrite write_data_refused in Hrun' by done. done. }
  destruct (write_data_ends chamber
              (List.filter is_bill_link (xpath_strings page "//@href")) file full
              w1 Hno)
    as (r & w3 & rows & Hrun & _ & _ & Hend).
  rewrite Hrun' in Hrun. destruct r as [[]|e'].
  { destruct (open_files w3 !! fresh (dom (open_files w1))) eqn:Hf;
      unfold file_close in Hrun; by rewrite Hf in Hrun. }
  injection Hrun as <- <-.
  destruct Hend as (l1 & url & l2 & w0 & Hl & _ & Hfail).
  assert (holds_bill_id url) as Hid.
  { apply ends_in_equals_holds_bill_id, is_bill_link_spec.
    assert (In url (List.filter is_bill_link (xpath_strings page "//@href")))
      as Hin by (rewrite Hl, in_app_iff; right; by left).
    by apply filter_In in Hin as [_ ?]. }
  pose proof (scrape_bill_AttributeError url w0) as Hattr.
  rewrite Hfail in Hattr. simpl in Hattr. by apply Hattr.
Qed.


(** ** When the script completes *)

(** [lxmlize] on a response the parser accepts. *)
Lemma lxmlize_answered url w r parsed :
  server w (requests w) (get_request url) = Responds r →
  fromstring (text r) = Some parsed →
  ∃ w', lxmlize url false w =
          (match make_links_absolute parsed url with
           | Some page => Ok page
           | None => Raise ValueError
           end, w').
Proof.
  intros Hr Hpage. destruct (lxmlize_first_try url false w r Hr) as (w1 & _ & _ & ->).
  unfold lxmlize_finish. rewrite Hpage. run.
  destruct (make_links_absolute parsed url); by eexists.
Qed.

(** X18.  For [house] and [senate], when the listing is served and the
    parser accepts it, [get_chamber_bills] returns when the links of the
    page can be made absolute, and raises [ValueError] when they cannot.
    Its result is the list of the hyperlink targets of the page, made
    absolute, that its pattern accepts, in the order of the page. *)
Theorem get_chamber_bills_completes (chamber session : string) (w : World)
    (r : Response) (parsed : Element) :
  chamber = "house"%string ∨ chamber = "senate"%string →
  let url := listing_url session (chamber +:+ "filed") in
  server w (requests w) (get_request url) = Responds r →
  fromstring (text r) = Some parsed →
  fst (get_chamber_bills chamber session w) =
    match make_links_absolute parsed url with
    | Some page => Ok (List.filter is_bill_link (xpath_strings page "//@href"))
    | None => Raise ValueError
    end.
Proof.
  intros Hchamber url Hr Hpage.
  assert (chamber_map !! chamber = Some (chamber +:+ "filed")) as Hmap.
  { rewrite chamber_map_lookup. by destruct Hchamber as [-> | ->]. }
  pose proof (get_chamber_bills_world chamber session _ w Hmap) as Hrun.
  simpl in Hrun. fold url in Hrun.
  destruct (lxmlize_answered url
              (log (Print ("Getting " +:+ chamber +:+ " bills")) w) r parsed)
    as (w' & Hl); [by rewrite requests_log_Print | done |].
  rewrite Hl in Hrun.
  destruct (make_links_absolute parsed url); by rewrite Hrun.
Qed.

(** One turn of the loop on a URL that is served. *)
Lemma scrape_bill_served url w :
  holds_bill_id url → serves (server w) url →
  ∃ row w', scrape_bill url w = (Ok row, w') ∧ server w' = server w.
Proof.
  intros [bill Hid]%re_search_holds_bill_id Hserves.
  destruct (Hserves (requests w)) as (r & parsed & page & Hr & Hparsed & Hpage & Hrows).
  destruct (lxmlize_answered url w r parsed Hr Hparsed) as (w' & Hl).
  rewrite Hpage in Hl.
  pose proof (keeps_server_lxmlize url false w) as Hserver.
  rewrite Hl in Hserver. simpl in Hserver.
  apply Forall_app in Hrows as [Hh Hs].
  apply mapM_is_Some in Hh as [h Hh]. apply mapM_is_Some in Hs as [s Hs].
  rewrite scrape_bill_run, Hid, Hl, Hh, Hs. by eexists _, w'.
Qed.

Lemma for_each_scrape_loop_served my_file (body : data_row → M unit) :
  (∀ row w, is_Some (open_files w !! my_file) →
            ∃ w', body row w = (Ok tt, w') ∧ server w' = server w ∧
                  is_Some (open_files w' !! my_file)) →
  ∀ bill_list bill_votes w,
    is_Some (open_files w !! my_file) →
    Forall (λ url, holds_bill_id url ∧ serves (server w) url) bill_list →
    ∃ w', for_each (scrape_loop bill_list bill_votes) body w = (Ok tt, w').
Proof.
  intros Hbody. induction bill_list as [|url rest IH]; intros bill_votes w Hopen Hall.
  - exists w. by rewrite for_each_unfold, next_scrape_loop_nil.
  - inversion Hall as [|? ? [Hid Hserves] Hrest]; subst.
    rewrite for_each_unfold, next_scrape_loop_cons.
    pose proof (keeps_open_files_scrape_bill url w) as Hobjects.
    destruct (scrape_bill_served url w Hid Hserves) as (row & w1 & Hbill & Hs1).
    rewrite Hbill in Hobjects |- *. simpl in Hobjects.
    rewrite <- Hobjects in Hopen.
    destruct (Hbody row w1 Hopen) as (w2 & -> & Hs2 & Hopen2).
    apply IH; [done |]. by rewrite Hs2, Hs1.
Qed.

(** X19.  When the system opens the file, and every URL of the list holds a
    bill identifier and is served with a page the parser accepts, whose
    links can be made absolute and whose vote rows all have their three
    fields, [write_data] completes on the rows of [scrape_chamber], in either
    mode: no write to an open file object and no [close] raises. *)
Theorem write_data_completes (chamber : string) (bill_list : list string)
    (file : string) (full : bool) (w : World) :
  refuses w file = false →
  Forall (λ url, holds_bill_id url ∧ serves (server w) url) bill_list →
  fst (write_data (scrape_chamber chamber bill_list) file full w) = Ok tt.
Proof.
  intros Hno Hall.
  destruct (open_append_spec file w Hno) as (Hopen & _ & _ & Hobjects).
  set (my_file := fresh (dom (open_files w))) in *.
  set (w0 := opened file w) in *.
  assert (is_Some (open_files w0 !! my_file)) as Hopen0
    by (rewrite Hobjects, lookup_insert_eq; by eexists).
  destruct (handed_writerow my_file (headers_of full) w0 Hopen0)
    as (w1 & Hhead & H1).
  pose proof (keeps_server_writerow my_file (headers_of full) w0) as Hserver1.
  rewrite Hhead in Hserver1. simpl in Hserver1.
  set (w2 := log (Print ("Scraping bill urls for chamber " +:+ chamber)) w1).
  assert (is_Some (open_files w2 !! my_file)) as Hopen2
    by exact (handed_open _ _ _ _ H1 Hopen0).
  assert (server w0 = server w) as Hserver0
    by (subst w0; unfold opened, open_append; by rewrite Hno).
  assert (Forall (λ url, holds_bill_id url ∧ serves (server w2) url) bill_list)
    as Hall2 by (simpl; by rewrite Hserver1, Hserver0).
  assert (∀ w3, ∃ w', file_close my_file w3 = (Ok tt, w')) as Hclose.
  { intros w3. unfold file_close.
    destruct (open_files w3 !! my_file); by eexists. }
  unfold write_data. rewrite bind_unfold, Hopen. cbv iota.
  destruct full.
  - rewrite !bind_unfold. simpl in Hhead. rewrite Hhead. cbv iota.
    rewrite for_each_scrape_chamber. fold w2.
    match goal with |- context [for_each _ ?b w2] => set (body := b) end.
    assert (∀ row w4, is_Some (open_files w4 !! my_file) →
              ∃ w', body row w4 = (Ok tt, w') ∧ server w' = server w4 ∧
                    is_Some (open_files w' !! my_file))
      as Hbody.
    { intros row w4 Hopen4. subst body. cbv beta.
      destruct (write_full_rows my_file row w4 Hopen4) as (w5 & Hw5 & H5).
      exists w5. split_and!; [done | | by eapply handed_open].
      pose proof (keeps_write_full server my_file row
                    (keeps_server_writerow my_file) w4) as Hkeeps.
      by rewrite Hw5 in Hkeeps. }
    destruct (for_each_scrape_loop_served my_file body Hbody bill_list [] w2
                Hopen2 Hall2) as (w3 & ->).
    by destruct (Hclose w3) as (w' & ->).
  - rewrite !bind_unfold. simpl in Hhead. rewrite Hhead. cbv iota.
    rewrite for_each_scrape_chamber. fold w2.
    match goal with |- context [for_each _ ?b w2] => set (body := b) end.
    assert (∀ row w4, is_Some (open_files w4 !! my_file) →
              ∃ w', body row w4 = (Ok tt, w') ∧ server w' = server w4 ∧
                    is_Some (open_files w' !! my_file))
      as Hbody.
    { intros row w4 Hopen4. subst body. cbv beta.
      destruct (write_summary_rows my_file row w4 Hopen4) as (w5 & Hw5 & H5).
      exists w5. split_and!; [done | | by eapply handed_open].
      pose proof (keeps_write_summary server my_file row
                    (keeps_server_writerow my_file) w4) as Hkeeps.
      by rewrite Hw5 in Hkeeps. }
    destruct (for_each_scrape_loop_served my_file body Hbody bill_list [] w2
                Hopen2 Hall2) as (w3 & ->).
    by destruct (Hclose w3) as (w' & ->).
Qed.

End More.

(** ** The further properties on concrete pages *)

Lemma lxmlize_ssl_retry_witness :
  let w := Dom.world Faulty.ssl_once ∅ in
  let url := Dom.HB15_url in
  (∀ f, server w (requests w ++ [get_request url]) (unverified_request url) = Fails f →
        lxmlize (Element := Dom.node) url false w =
          (Raise (exn_of f),
           log (Get (unverified_request url)) (after_ssl_error url w))) ∧
  (∀ r, server w (requests w ++ [get_request url]) (unverified_request url) = Responds r →
        ∃ w1, lxmlize_try url w = (Ok r, w1) ∧
              events w1 = events w ++ [Get (get_request url); Print ssl_notice;
                                       Get (unverified_request url)]).
Proof.
  apply (lxmlize_ssl_retry Dom.HB15_url false (Dom.world Faulty.ssl_once ∅)).
  reflexivity.
Defined.

Lemma lxmlize_retry_transparent_witness :
  fst (lxmlize Dom.HB15_url false (Dom.world Dom.refusing_once ∅)) =
  fst (lxmlize Dom.HB15_url false Dom.fresh).
Proof.
  apply (lxmlize_retry_transparent Dom.HB15_url false
           (Dom.world Dom.refusing_once ∅) Dom.fresh
           {| status_code := 200; text := Dom.HB15_text |}
           (snd (lxmlize_try Dom.HB15_url (Dom.world Dom.refusing_once ∅)))
           (snd (lxmlize_try Dom.HB15_url Dom.fresh)));
    vm_compute; reflexivity.
Defined.

Lemma get_chamber_bills_reports_count_witness :
  ∃ notices,
    stdout (snd (get_chamber_bills "house" "85R" Dom.fresh)) =
      stdout Dom.fresh ++ "Getting house bills"%string :: notices ++
      ["Found " +:+ pretty (length [Dom.HB15_url; Dom.SB4_url]) +:+ " house bills"] ∧
    (notices = [] ∨ notices = [ssl_notice] ∨ notices = [wait_notice]).
Proof.
  apply (get_chamber_bills_reports_count "house" "85R" Dom.fresh
           [Dom.HB15_url; Dom.SB4_url]
           (snd (get_chamber_bills "house" "85R" Dom.fresh))).
  vm_compute. reflexivity.
Defined.

Lemma get_chamber_bills_then_scrape_witness :
  NeverRaises AttributeError (scrape_chamber "house" [Dom.HB15_url; Dom.SB4_url]) ∧
  ∀ url w1 row w2,
    In url [Dom.HB15_url; Dom.SB4_url] → scrape_bill url w1 = (Ok row, w2) →
    ∃ p bill v tl, row = [(bill, v)] ∧
                   chars_of url = p ++ "=" :: chars_of bill ++ tl ∧
                   bill_id (chars_of bill) ∧ eos tl.
Proof.
  apply (get_chamber_bills_then_scrape "house" "85R" Dom.fresh
           [Dom.HB15_url; Dom.SB4_url]
           (snd (get_chamber_bills "house" "85R" Dom.fresh))).
  vm_compute. reflexivity.
Defined.

Lemma scrape_bill_records_witness :
  ∃ bill v page,
    [("SB4"%string, Dom.SB4_votes)] = [(bill, v)] ∧
    lxmlize Dom.SB4_url false Dom.fresh =
      (Ok page, snd (scrape_bill Dom.SB4_url Dom.fresh)) ∧
    Forall2 (λ r record, record_of r = Some record)
            (xpath_elements page houvote_query) (lower v) ∧
    Forall2 (λ r record, record_of r = Some record)
            (xpath_elements page senvote_query) (upper v).
Proof.
  apply (scrape_bill_records Dom.SB4_url Dom.fresh).
  vm_compute. reflexivity.
Defined.

Lemma scrape_bill_missing_field_witness :
  scrape_bill (H := Faulty.lxml) Dom.HB15_url Dom.fresh =
    (Raise IndexError, snd (lxmlize (H := Faulty.lxml) Dom.HB15_url false Dom.fresh)).
Proof.
  apply (scrape_bill_missing_field (H := Faulty.lxml) Dom.HB15_url Dom.fresh
           Faulty.HB15_page).
  - apply re_search_holds_bill_id. vm_compute. by eexists.
  - vm_compute. reflexivity.
  - vm_compute. apply Exists_cons_hd. reflexivity.
Defined.

Lemma scrape_chamber_dates_trimmed_witness :
  trimmed (date Faulty.HB15_record).
Proof.
  apply (scrape_chamber_dates_trimmed "house" [Dom.HB15_url]
           [("HB15"%string, Faulty.HB15_votes)] "HB15" Faulty.HB15_votes
           Faulty.HB15_record).
  - eapply (Produces_now _ Dom.fresh). vm_compute. reflexivity.
  - left. reflexivity.
  - left. reflexivity.
Defined.


(** One open file object survives a call of [write_data] on its path. *)
Lemma write_data_closes_witness :
  let w := snd (open_append "results.csv" Dom.fresh) in
  open_files (snd (write_data (scrape_chamber "house" [Dom.HB15_url; Dom.SB4_url])
                     "results.csv" false w)) =
  open_files w.
Proof.
  apply (write_data_closes "house" [Dom.HB15_url; Dom.SB4_url] "results.csv" false
           (snd (open_append "results.csv" Dom.fresh))).
  vm_compute. reflexivity.
Defined.

Lemma write_data_no_bills_witness :
  let w' := snd (write_data (scrape_chamber "house" []) "results.csv" false
                   Dom.rerun) in
  events w' = events Dom.rerun ++ [Print (scraping_notice "house")] ∧
  files w' !! "results.csv"%string =
    Some (content Dom.rerun "results.csv" ++ format_row (headers_of false)).
Proof.
  apply (write_data_no_bills "house" "results.csv" false Dom.rerun).
  vm_compute. reflexivity.
Defined.

Lemma discover_then_write_exceptions_witness :
  fst (write_data (scrape_chamber "house" [Dom.HB15_url; Dom.SB4_url])
         "results.csv" false
         (snd (get_chamber_bills "house" "85R" (Dom.world Faulty.listing_only ∅))))
  ≠ Raise AttributeError.
Proof.
  apply (discover_then_write_exceptions (Element := Dom.node) "house" "85R"
           "results.csv" false
           (Dom.world Faulty.listing_only ∅)
           [Dom.HB15_url; Dom.SB4_url]
           (snd (get_chamber_bills "house" "85R" (Dom.world Faulty.listing_only ∅)))).
  vm_compute. reflexivity.
Defined.


(** The listing of [Dom.fresh], whose links can be made absolute, and a page
    with a link that cannot. *)
Lemma get_chamber_bills_completes_witness :
  fst (get_chamber_bills "house" "85R" Dom.fresh) =
    match make_links_absolute Dom.listing_page
            (listing_url "85R" ("house" +:+ "filed")) with
    | Some page => Ok (List.filter is_bill_link (xpath_strings page "//@href"))
    | None => Raise ValueError
    end.
Proof.
  apply (get_chamber_bills_completes "house" "85R" Dom.fresh
           {| status_code := 200; text := Dom.listing_text |} Dom.listing_page).
  - by left.
  - reflexivity.
  - reflexivity.
Defined.

Example lxmlize_on_a_malformed_link :
  lxmlize Dom.HB99_url false Dom.fresh =
    (Raise ValueError,
     snd (requests_get Dom.HB99_url true Dom.fresh)).
Proof. vm_compute. reflexivity. Qed.

Lemma Dom_serves_HB15 : serves Dom.steady Dom.HB15_url.
Proof.
  intros history.
  exists {| status_code := 200; text := Dom.HB15_text |}, Dom.HB15_page, Dom.HB15_page.
  split_and!; [reflexivity | reflexivity | reflexivity |].
  vm_compute. repeat constructor; by eexists.
Qed.

Lemma Dom_serves_SB4 : serves Dom.steady Dom.SB4_url.
Proof.
  intros history.
  exists {| status_code := 200; text := Dom.SB4_text |}, Dom.SB4_page, Dom.SB4_page.
  split_and!; [reflexivity | reflexivity | reflexivity |].
  vm_compute. repeat constructor; by eexists.
Qed.

Lemma write_data_completes_witness :
  fst (write_data (scrape_chamber "house" [Dom.HB15_url; Dom.SB4_url])
         "results.csv" true Dom.rerun) = Ok tt.
Proof.
  apply (write_data_completes "house" [Dom.HB15_url; Dom.SB4_url] "results.csv"
           true Dom.rerun).
  - reflexivity.
  - repeat constructor.
    + apply re_search_holds_bill_id. vm_compute. by eexists.
    + apply Dom_serves_HB15.
    + apply re_search_holds_bill_id. vm_compute. by eexists.
    + apply Dom_serves_SB4.
Defined.

Example write_data_on_a_refused_path :
  write_data (scrape_chamber "house" [Dom.HB15_url]) "results/" false Dom.fresh =
    (Raise OSError, Dom.fresh).
Proof. reflexivity. Qed.
